(** * kama: the request handlers of [kama/server.py]

    A shallow embedding of the gRPC servicer [DatabaseServicer] and of
    [entity_to_pb], together with a model of the storage module
    [kama.database] they call.  Handlers are pure functions over an explicit
    store; Python exceptions are the left summand of [Result]; a generator is
    the list of the values it yields together with the way it terminates. *)

From Stdlib Require Import List String Ascii Bool Arith Lia.
Import ListNotations.
Local Open Scope string_scope.
Local Open Scope list_scope.

(** ** Exceptions and results *)

Inductive Exn : Type :=
| PermissionDeniedException   (* kama.database.PermissionDeniedException *)
| AssertionError              (* a failed [assert] *)
| UnboundLocalError           (* a local read before any assignment *)
| NameError                   (* a closure cell read before any assignment *)
| TypeError.                  (* a call with the wrong number of arguments *)

Definition Result (A : Type) : Type := (Exn + A)%type.

Definition Ok {A} (a : A) : Result A := inr a.
Definition Raise {A} (e : Exn) : Result A := inl e.

Definition bind {A B} (r : Result A) (k : A -> Result B) : Result B :=
  match r with
  | inl e => inl e
  | inr a => k a
  end.

Notation "x <- c ;; k" := (bind c (fun x => k))
  (at level 61, c at next level, right associativity).

(** [for x in xs: ys.append(f(x))], any exception leaving the loop. *)
Fixpoint mapM {A B} (f : A -> Result B) (xs : list A) : Result (list B) :=
  match xs with
  | [] => Ok []
  | x :: rest =>
      y <- f x ;;
      ys <- mapM f rest ;;
      Ok (y :: ys)
  end.

(** Python truth of a string and of a list. *)
Definition truthy (s : string) : bool := negb (s =? EmptyString).
Definition nonempty {A} (l : list A) : bool :=
  match l with [] => false | _ :: _ => true end.

(** gRPC status codes; a handler that raises is reported as [UNKNOWN]. *)
Inductive StatusCode : Type :=
| OK | NOT_FOUND | FAILED_PRECONDITION | INVALID_ARGUMENT
| PERMISSION_DENIED | UNKNOWN.

(** ** Protocol messages (kama_pb2) *)

(** A nested [Entity] message, of which the handlers only ever touch the
    three scalar fields. *)
Record EntityRef : Type := mkRef {
  ref_uuid : string;
  ref_kind : string;
  ref_name : string
}.

Definition default_ref : EntityRef :=
  mkRef EmptyString EmptyString EmptyString.

(** A message-typed field: [None] while unset.  Reading an unset field gives
    the default instance. *)
Definition sub (m : option EntityRef) : EntityRef :=
  match m with Some r => r | None => default_ref end.

(** The truth value of a message-typed field, as in [if permission.role:].
    A protobuf message object defines neither [__bool__] nor [__len__], so
    it is true whether or not the field is set. *)
Definition truthy_msg (m : option EntityRef) : bool := true.

(** Whether a message-typed field is set (what [HasField] answers). *)
Definition is_set (m : option EntityRef) : bool :=
  match m with Some _ => true | None => false end.

Record AttributePb : Type := mkAttributePb {
  apb_uuid : string;
  apb_entity : option EntityRef;
  apb_key : string;
  apb_value : string
}.

Record LinkPb : Type := mkLinkPb {
  lpb_uuid : string;
  lpb_from_entity : option EntityRef;
  lpb_to_entity : option EntityRef
}.

Record PermissionPb : Type := mkPermissionPb {
  ppb_uuid : string;
  ppb_role : option EntityRef;
  ppb_entity : option EntityRef;
  ppb_name : string
}.

Record EntityPb : Type := mkEntityPb {
  pb_uuid : string;
  pb_name : string;
  pb_kind : string;
  pb_attributes : list AttributePb;
  pb_links_from : list LinkPb;
  pb_links_to : list LinkPb;
  pb_permissions : list PermissionPb
}.

(** [kama_pb2.Entity()] *)
Definition empty_entity_pb : EntityPb :=
  mkEntityPb EmptyString EmptyString EmptyString [] [] [] [].

Record CreateEntityRequest : Type := mkCreateEntityRequest {
  cr_entity : EntityPb;
  cr_owner_role : option EntityRef
}.

(** [google.protobuf.empty_pb2.Empty] *)
Inductive Empty : Type := EmptyMsg.

(** ** The storage module kama.database *)

(** The module is not among the sources: everything in it is modelled from
    the specification (sections 3, 4.2 to 4.4 and 8) and from the way
    [kama/server.py] calls it. *)

Module Database.

(** Modelled from the spec: the storage layer's records for the entities,
    attributes, links and permissions of section 3, with the field names
    [entity_to_pb] reads. *)
Record EntityRow : Type := mkEntityRow {
  e_uuid : string;
  e_kind : string;
  e_name : string
}.

Record AttributeRow : Type := mkAttributeRow {
  a_uuid : string;
  a_entity_uuid : string;
  a_key : string;
  a_value : string
}.

Record LinkRow : Type := mkLinkRow {
  l_uuid : string;
  l_from_uuid : string;
  l_to_uuid : string
}.

Record PermissionRow : Type := mkPermissionRow {
  p_uuid : string;
  p_role_uuid : string;
  p_entity_uuid : string;
  p_name : string
}.

(** Modelled from the spec: the durable store, one table per kind of
    object, each in its enumeration order. *)
Record Store : Type := mkStore {
  entities : list EntityRow;
  attributes_tbl : list AttributeRow;
  links_tbl : list LinkRow;
  permissions_tbl : list PermissionRow
}.

(** Modelled from the spec: the class [kama.database.Entity].  An object of
    the class is a handle on an identifier; [Entity(uuid)] builds it
    without consulting the store. *)
Record Entity : Type := mkEntity { uuid : string }.

(** Modelled from the spec: equality of [Entity] objects, which the [in] of
    [CreateEntity] uses: two handles are equal when their identifiers are. *)
Definition entity_eqb (a b : Entity) : bool := uuid a =? uuid b.

Definition find_row (db : Store) (e : Entity) : option EntityRow :=
  find (fun r => e_uuid r =? uuid e) (entities db).

(** Modelled from the spec: the truth value of an [Entity] object, which
    [GetEntity] tests to tell a resolved point lookup from [NotFound]:
    whether an entity with that identifier exists. *)
Definition entity_bool (db : Store) (e : Entity) : bool :=
  match find_row db e with Some _ => true | None => false end.

(** Modelled from the spec: the properties [Entity.kind] and [Entity.name],
    read from the store. *)
Definition kind (db : Store) (e : Entity) : string :=
  match find_row db e with Some r => e_kind r | None => EmptyString end.

Definition name (db : Store) (e : Entity) : string :=
  match find_row db e with Some r => e_name r | None => EmptyString end.

(** Modelled from the spec: the request context that
    [kama.context.get_request_context] derives from the call, holding the
    authenticated caller (section 3). *)
Record RequestContext : Type := mkContext { user : Entity }.

(** Modelled from the spec: the end points of a link object, under the
    names the handlers call them by: [x.from_entity()] in [CreateEntity],
    [y.entity_from(context=...)] and [y.entity_to(context=...)] in the
    search. *)
Definition from_entity (l : LinkRow) : Entity := mkEntity (l_from_uuid l).
Definition entity_from (ctx : RequestContext) (l : LinkRow) : Entity :=
  mkEntity (l_from_uuid l).
Definition entity_to (ctx : RequestContext) (l : LinkRow) : Entity :=
  mkEntity (l_to_uuid l).

(** Modelled from the spec: the links that arrive at an entity and the
    links that leave it.  [links_to] of the handlers are the former
    ([entity_to_pb] stores them as [links_to] and the search compares their
    [from] end), [links_from] the latter. *)
Definition incoming (db : Store) (e : Entity) : list LinkRow :=
  filter (fun l => l_to_uuid l =? uuid e) (links_tbl db).
Definition outgoing (db : Store) (e : Entity) : list LinkRow :=
  filter (fun l => l_from_uuid l =? uuid e) (links_tbl db).

(** Modelled from the spec: the role enumeration of section 4.2, in the
    direction [CreateEntity] enumerates the caller's roles:
    [x.from_entity() for x in user.links_to(...)]. *)
Definition roles_of (db : Store) (u : Entity) : list Entity :=
  map from_entity (incoming db u).

(** Modelled from the spec: the permission evaluator [CanAccess(context,
    entity, capability)] of section 4.2: some role of the caller holds a
    permission on the entity whose name is the capability; default deny. *)
Definition can_access (db : Store) (ctx : RequestContext) (e : Entity)
    (capability : string) : bool :=
  existsb (fun p =>
             (p_entity_uuid p =? uuid e)
             && (p_name p =? capability)
             && existsb (entity_eqb (mkEntity (p_role_uuid p)))
                        (roles_of db (user ctx)))
          (permissions_tbl db).

(** Modelled from the spec: the check every accessor that is handed a
    request context performs before it reads or writes (sections 4.2 and
    4.3): [PermissionDeniedException] when the capability is missing. *)
Definition require (db : Store) (ctx : RequestContext) (e : Entity)
    (capability : string) : Result unit :=
  if can_access db ctx e capability then Ok tt
  else Raise PermissionDeniedException.

(** Modelled from the spec: [Entity.attributes(key=None, context=...)]. *)
Definition attributes (db : Store) (ctx : RequestContext) (e : Entity)
    (key : option string) : Result (list AttributeRow) :=
  _ <- require db ctx e "read" ;;
  Ok (filter (fun a =>
                (a_entity_uuid a =? uuid e)
                && match key with
                   | Some k => a_key a =? k
                   | None => true
                   end)
             (attributes_tbl db)).

(** Modelled from the spec: [Entity.links_from(context=...)]. *)
Definition links_from (db : Store) (ctx : RequestContext) (e : Entity)
    : Result (list LinkRow) :=
  _ <- require db ctx e "read" ;;
  Ok (outgoing db e).

(** Modelled from the spec: [Entity.links_to(context=...)]. *)
Definition links_to (db : Store) (ctx : RequestContext) (e : Entity)
    : Result (list LinkRow) :=
  _ <- require db ctx e "read" ;;
  Ok (incoming db e).

(** Modelled from the spec: [Entity.permissions(context=...)]. *)
Definition permissions (db : Store) (ctx : RequestContext) (e : Entity)
    : Result (list PermissionRow) :=
  _ <- require db ctx e "read" ;;
  Ok (filter (fun p => p_entity_uuid p =? uuid e) (permissions_tbl db)).

(** Modelled from the spec: [Entity.get_all()] and [Entity.get_by_kind],
    in the store's enumeration order and without any permission check
    (they are not handed a context). *)
Definition get_all (db : Store) : list Entity :=
  map (fun r => mkEntity (e_uuid r)) (entities db).

Definition get_by_kind (db : Store) (k : string) : list Entity :=
  map (fun r => mkEntity (e_uuid r))
      (filter (fun r => e_kind r =? k) (entities db)).

(** Modelled from the spec: [Entity.get_by_name], the lookup on the
    secondary key (kind, name) of section 3.  It takes the positional
    arguments of the call; with any other number of them the call itself
    fails.  No match is Python's [None]. *)
Definition get_by_name (db : Store) (args : list string)
    : Result (option Entity) :=
  match args with
  | [k; n] =>
      Ok (option_map (fun r => mkEntity (e_uuid r))
            (find (fun r => (e_kind r =? k) && (e_name r =? n))
                  (entities db)))
  | _ => Raise TypeError
  end.

(** Truth of what a point lookup returned. *)
Definition lookup_bool (db : Store) (r : option Entity) : bool :=
  match r with Some e => entity_bool db e | None => false end.

(** Every identifier in use, over the four tables. *)
Definition used_uuids (db : Store) : list string :=
  map e_uuid (entities db) ++ map a_uuid (attributes_tbl db)
  ++ map l_uuid (links_tbl db) ++ map p_uuid (permissions_tbl db).

Fixpoint pad (n : nat) : string :=
  match n with
  | O => EmptyString
  | S m => String "u"%char (pad m)
  end.

(** Modelled from the spec: a fresh identifier.  The generator of the
    storage module is random; here it is the text one longer than every
    identifier in [used]. *)
Definition fresh_uuid (used : list string) : string :=
  pad (S (list_max (map String.length used))).

(** Modelled from the spec: the capabilities of section 4.2, all of which
    the owner role holds on an entity it owns. *)
Definition capabilities : list string := ["read"; "write"; "link"; "grant"].

Fixpoint grant_all (used : list string) (role e : string)
    (caps : list string) : list PermissionRow :=
  match caps with
  | [] => []
  | c :: rest =>
      let u := fresh_uuid used in
      mkPermissionRow u role e c :: grant_all (u :: used) role e rest
  end.

(** Modelled from the spec: [Entity.create(kind, name, owner)]: a new
    entity under a fresh identifier, owned by the role [owner]. *)
Definition create (db : Store) (k n : string) (owner : Entity)
    : Store * Entity :=
  let u := fresh_uuid (used_uuids db) in
  (mkStore (entities db ++ [mkEntityRow u k n])
           (attributes_tbl db)
           (links_tbl db)
           (permissions_tbl db
            ++ grant_all (u :: used_uuids db) (uuid owner) u capabilities),
   mkEntity u).

(** Modelled from the spec: [Entity.delete_attributes(key, context=...)]:
    needs the write capability, then drops every attribute of the entity
    under that key. *)
Definition delete_attributes (db : Store) (ctx : RequestContext)
    (e : Entity) (key : string) : Store * Result unit :=
  match require db ctx e "write" with
  | inl ex => (db, Raise ex)
  | inr _ =>
      (mkStore (entities db)
               (filter (fun a =>
                          negb ((a_entity_uuid a =? uuid e)
                                && (a_key a =? key)))
                       (attributes_tbl db))
               (links_tbl db)
               (permissions_tbl db),
       Ok tt)
  end.

(** Modelled from the spec: [Entity.set_name(name, context=...)] of section
    4.4: needs the write capability, then renames the entity in place. *)
Definition set_name (db : Store) (ctx : RequestContext) (e : Entity)
    (n : string) : Store * Result unit :=
  match require db ctx e "write" with
  | inl ex => (db, Raise ex)
  | inr _ =>
      (mkStore (map (fun r => if e_uuid r =? uuid e
                              then mkEntityRow (e_uuid r) (e_kind r) n
                              else r)
                    (entities db))
               (attributes_tbl db)
               (links_tbl db)
               (permissions_tbl db),
       Ok tt)
  end.

End Database.

(** ** The servicer of kama/server.py *)

Module Server.
Import Database.

(** What a unary handler hands back: the status code it set on the gRPC
    context ([OK] unless [set_code] was called) and the reply message. *)
Record Response (A : Type) : Type := mkResponse {
  code : StatusCode;
  reply : A
}.
Arguments mkResponse {A} _ _.
Arguments code {A} _.
Arguments reply {A} _.

(** How a streaming handler (a generator) ends. *)
Inductive Terminated : Type :=
| Finished
| Raised (e : Exn).

(** The status the caller observes for a stream. *)
Definition status_of (t : Terminated) : StatusCode :=
  match t with
  | Finished => OK
  | Raised _ => UNKNOWN
  end.

(** A value handed to [yield]: a message, or a database object (the result
    of [Entity(...)] or of [get_by_name], [None] included). *)
Inductive Yielded : Type :=
| YPb (pb : EntityPb)
| YDb (r : option Entity).

(** *** entity_to_pb *)

Definition attribute_to_pb (db : Store) (e : Entity) (a : AttributeRow)
    : AttributePb :=
  mkAttributePb (a_uuid a)
                (Some (mkRef (a_entity_uuid a) (kind db e) (name db e)))
                (a_key a) (a_value a).

Definition link_to_pb (l : LinkRow) : LinkPb :=
  mkLinkPb (l_uuid l)
           (Some (mkRef (l_from_uuid l) EmptyString EmptyString))
           (Some (mkRef (l_to_uuid l) EmptyString EmptyString)).

Definition permission_to_pb (p : PermissionRow) : PermissionPb :=
  mkPermissionPb (p_uuid p)
                 (Some (mkRef (p_role_uuid p) EmptyString EmptyString))
                 (Some (mkRef (p_entity_uuid p) EmptyString EmptyString))
                 (p_name p).

Definition entity_to_pb (db : Store) (context : RequestContext)
    (entity : Entity) : Result EntityPb :=
  attrs <- attributes db context entity None ;;
  lfrom <- links_from db context entity ;;
  lto <- links_to db context entity ;;
  perms <- permissions db context entity ;;
  Ok (mkEntityPb (uuid entity) (name db entity) (kind db entity)
                 (map (attribute_to_pb db entity) attrs)
                 (map link_to_pb lfrom)
                 (map link_to_pb lto)
                 (map permission_to_pb perms)).

(** *** ListEntities: the filter closures

    Each [lambda] of lines 80 to 98 is a closure over the local variables
    of the handler, not over their values: a closure is its code together
    with the frame it reads [attribute], [link] and [permission] from when
    it is called, which is after the loops that bind them have ended. *)

Inductive Filter : Type :=
| AttributeKeyValue    (* line 80 *)
| AttributeKey         (* line 82 *)
| LinkFrom             (* line 85 *)
| LinkTo               (* line 88 *)
| PermissionUuid       (* line 92 *)
| PermissionRole       (* line 94 *)
| PermissionEntity     (* line 96 *)
| PermissionName.      (* line 98 *)

(** The locals of [ListEntities] the closures and the loops share. *)
Record Locals : Type := mkLocals {
  filters : list Filter;
  attribute : option AttributePb;
  link : option LinkPb;
  permission : option PermissionPb
}.

Definition append (s : Locals) (f : Filter) : Locals :=
  mkLocals (filters s ++ [f]) (attribute s) (link s) (permission s).

Definition when (b : bool) (s : Locals) (f : Filter) : Locals :=
  if b then append s f else s.

(** One turn of [for attribute in entity.attributes]. *)
Definition attribute_step (s : Locals) (a : AttributePb) : Result Locals :=
  let s := mkLocals (filters s) (Some a) (link s) (permission s) in
  if truthy (apb_uuid a) then Raise AssertionError
  else if truthy (apb_key a) && truthy (apb_value a)
       then Ok (append s AttributeKeyValue)
  else if truthy (apb_key a) then Ok (append s AttributeKey)
  else Ok s.

(** One turn of [for link in entity.links_from] and of
    [for link in entity.links_to]: both loops bind the same variable. *)
Definition links_from_step (s : Locals) (l : LinkPb) : Result Locals :=
  Ok (append (mkLocals (filters s) (attribute s) (Some l) (permission s))
             LinkFrom).

Definition links_to_step (s : Locals) (l : LinkPb) : Result Locals :=
  Ok (append (mkLocals (filters s) (attribute s) (Some l) (permission s))
             LinkTo).

(** One turn of [for permission in entity.permissions]: four independent
    [if]s. *)
Definition permission_step (s : Locals) (p : PermissionPb) : Result Locals :=
  let s := mkLocals (filters s) (attribute s) (link s) (Some p) in
  let s := when (truthy (ppb_uuid p)) s PermissionUuid in
  let s := when (truthy_msg (ppb_role p)) s PermissionRole in
  let s := when (truthy_msg (ppb_entity p)) s PermissionEntity in
  let s := when (truthy (ppb_name p)) s PermissionName in
  Ok s.

Fixpoint for_each {A} (step : Locals -> A -> Result Locals) (xs : list A)
    (s : Locals) : Result Locals :=
  match xs with
  | [] => Ok s
  | x :: rest => s' <- step s x ;; for_each step rest s'
  end.

(** Lines 76 to 98. *)
Definition build_filters (entity : EntityPb) : Result Locals :=
  s <- for_each attribute_step (pb_attributes entity)
                (mkLocals [] None None None) ;;
  s <- for_each links_from_step (pb_links_from entity) s ;;
  s <- for_each links_to_step (pb_links_to entity) s ;;
  for_each permission_step (pb_permissions entity) s.

(** Reading a closure variable. *)
Definition deref {A} (cell : option A) : Result A :=
  match cell with
  | Some v => Ok v
  | None => Raise NameError
  end.

(** Calling one closure on a candidate [x]; the result is the truth value
    of the list the closure returns. *)
Definition call_filter (db : Store) (request_context : RequestContext)
    (s : Locals) (f : Filter) (x : Entity) : Result bool :=
  match f with
  | AttributeKeyValue =>
      a <- deref (attribute s) ;;
      ys <- attributes db request_context x (Some (apb_key a)) ;;
      Ok (nonempty (filter (fun y => a_value y =? apb_value a) ys))
  | AttributeKey =>
      a <- deref (attribute s) ;;
      ys <- attributes db request_context x (Some (apb_key a)) ;;
      Ok (nonempty ys)
  | LinkFrom =>
      l <- deref (link s) ;;
      ys <- links_from db request_context x ;;
      Ok (nonempty (filter (fun y => uuid (entity_to request_context y)
                                     =? ref_uuid (sub (lpb_to_entity l)))
                           ys))
  | LinkTo =>
      l <- deref (link s) ;;
      ys <- links_to db request_context x ;;
      Ok (nonempty (filter (fun y => uuid (entity_from request_context y)
                                     =? ref_uuid (sub (lpb_from_entity l)))
                           ys))
  | PermissionUuid =>
      p <- deref (permission s) ;;
      ys <- permissions db request_context x ;;
      Ok (nonempty (filter (fun y => p_uuid y =? ppb_uuid p) ys))
  | PermissionRole =>
      p <- deref (permission s) ;;
      ys <- permissions db request_context x ;;
      Ok (nonempty (filter (fun y => p_role_uuid y
                                     =? ref_uuid (sub (ppb_role p)))
                           ys))
  | PermissionEntity =>
      p <- deref (permission s) ;;
      ys <- permissions db request_context x ;;
      Ok (nonempty (filter (fun y => p_entity_uuid y
                                     =? ref_uuid (sub (ppb_entity p)))
                           ys))
  | PermissionName =>
      p <- deref (permission s) ;;
      ys <- permissions db request_context x ;;
      Ok (nonempty (filter (fun y => p_name y =? ppb_name p) ys))
  end.

(** [lambda x: all([bool(y(x)) for y in filters])]: the list is built in
    full before [all] looks at it. *)
Definition combo_filter (db : Store) (request_context : RequestContext)
    (s : Locals) (x : Entity) : Result bool :=
  bs <- mapM (fun y => call_filter db request_context s y x) (filters s) ;;
  Ok (forallb (fun b => b) bs).

(** The body of the [try] of lines 103 and 104 for one candidate:
    [Some pb] when a message is yielded. *)
Definition try_candidate (db : Store) (request_context : RequestContext)
    (s : Locals) (x : Entity) : Result (option EntityPb) :=
  keep <- combo_filter db request_context s x ;;
  if keep then
    pb <- entity_to_pb db request_context x ;;
    Ok (Some pb)
  else Ok None.

(** Lines 101 to 106: only [PermissionDeniedException] is caught. *)
Fixpoint search_loop (db : Store) (request_context : RequestContext)
    (s : Locals) (result : list Entity) : list Yielded * Terminated :=
  match result with
  | [] => ([], Finished)
  | x :: rest =>
      match try_candidate db request_context s x with
      | inl PermissionDeniedException =>
          search_loop db request_context s rest
      | inl ex => ([], Raised ex)
      | inr None => search_loop db request_context s rest
      | inr (Some pb) =>
          let (ys, t) := search_loop db request_context s rest in
          (YPb pb :: ys, t)
      end
  end.

(** Lines 69 to 74. *)
Definition candidates (db : Store) (entity : EntityPb) : list Entity :=
  if truthy (pb_kind entity) then get_by_kind db (pb_kind entity)
  else get_all db.

Definition ListEntities (db : Store) (request_context : RequestContext)
    (entity : EntityPb) : list Yielded * Terminated :=
  if truthy (pb_uuid entity) then
    ([YDb (Some (mkEntity (pb_uuid entity)))], Finished)
  else if truthy (pb_name entity) then
    match get_by_name db [pb_name entity] with
    | inl ex => ([], Raised ex)
    | inr r => ([YDb r], Finished)
    end
  else
    let result := candidates db entity in
    match build_filters entity with
    | inl ex => ([], Raised ex)
    | inr s => search_loop db request_context s result
    end.

(** *** GetEntity

    [result] is a local that only the two branches assign: [None] below is
    the unbound local. *)
Definition GetEntity (db : Store) (request_context : RequestContext)
    (entity : EntityPb) : Result (Response EntityPb) :=
  result <-
    (if truthy (pb_uuid entity) then
       Ok (Some (Some (mkEntity (pb_uuid entity))))
     else if truthy (pb_kind entity) && truthy (pb_name entity) then
       r <- get_by_name db [pb_kind entity; pb_name entity] ;;
       Ok (Some r)
     else Ok None) ;;
  match result with
  | None => Raise UnboundLocalError
  | Some None => Ok (mkResponse NOT_FOUND entity)
  | Some (Some e) =>
      if entity_bool db e then
        pb <- entity_to_pb db request_context e ;;
        Ok (mkResponse OK pb)
      else Ok (mkResponse NOT_FOUND entity)
  end.

(** *** CreateEntity *)

(** [[x.from_entity() for x in request_context.user.links_to(context=...)]] *)
Definition linked_roles (db : Store) (request_context : RequestContext)
    : Result (list Entity) :=
  ls <- links_to db request_context (user request_context) ;;
  Ok (map from_entity ls).

Definition CreateEntity (db : Store) (request_context : RequestContext)
    (request : CreateEntityRequest)
    : Store * Result (Response EntityPb) :=
  let owner := mkEntity (ref_uuid (sub (cr_owner_role request))) in
  match linked_roles db request_context with
  | inl ex => (db, Raise ex)
  | inr roles =>
      if negb (existsb (entity_eqb owner) roles) then
        (db, Ok (mkResponse FAILED_PRECONDITION empty_entity_pb))
      else
        let (db', entity) :=
          create db (pb_kind (cr_entity request))
                 (pb_name (cr_entity request)) owner in
        (db', pb <- entity_to_pb db' request_context entity ;;
              Ok (mkResponse OK pb))
  end.

(** *** DeleteAttributes *)

Definition DeleteAttributes (db : Store) (request_context : RequestContext)
    (pb_attribute : AttributePb) : Store * Result (Response Empty) :=
  let entity := mkEntity (ref_uuid (sub (apb_entity pb_attribute))) in
  let (db', r) :=
    delete_attributes db request_context entity (apb_key pb_attribute) in
  (db', _ <- r ;; Ok (mkResponse OK EmptyMsg)).

(** *** UpdateEntity *)

Definition UpdateEntity (db : Store) (request_context : RequestContext)
    (entity : EntityPb) : Store * Result (Response EntityPb) :=
  let db_entity := mkEntity (pb_uuid entity) in
  let (db', r) :=
    set_name db request_context db_entity (pb_name entity) in
  (db', _ <- r ;;
        pb <- entity_to_pb db' request_context db_entity ;;
        Ok (mkResponse OK pb)).

End Server.

(** ** The search as section 4.3 of the specification words it

    A second definition, following the specification and not the code: a
    tagged predicate list in which every predicate carries the parameters of
    the criterion it was built from.  It is what [ListEntities] is compared
    with. *)

Module Spec.
Import Database.

Inductive Predicate : Type :=
| AttributeEquals (key value : string)
| AttributeKeyExists (key : string)
| HasOutgoingLinkTo (target : string)
| HasIncomingLinkFrom (source : string)
| HasPermissionUuid (id : string)
| HasPermissionRole (role : string)
| HasPermissionEntity (target : string)
| HasPermissionName (capability : string).

Definition of_attribute (a : AttributePb) : list Predicate :=
  if truthy (apb_key a) && truthy (apb_value a)
  then [AttributeEquals (apb_key a) (apb_value a)]
  else if truthy (apb_key a) then [AttributeKeyExists (apb_key a)]
  else [].

Definition of_permission (p : PermissionPb) : list Predicate :=
  (if truthy (ppb_uuid p) then [HasPermissionUuid (ppb_uuid p)] else [])
  ++ (if is_set (ppb_role p)
      then [HasPermissionRole (ref_uuid (sub (ppb_role p)))] else [])
  ++ (if is_set (ppb_entity p)
      then [HasPermissionEntity (ref_uuid (sub (ppb_entity p)))] else [])
  ++ (if truthy (ppb_name p) then [HasPermissionName (ppb_name p)] else []).

(** Step 2: one predicate per non-empty criterion group. *)
Definition predicates (criteria : EntityPb) : list Predicate :=
  flat_map of_attribute (pb_attributes criteria)
  ++ map (fun l => HasOutgoingLinkTo (ref_uuid (sub (lpb_to_entity l))))
         (pb_links_from criteria)
  ++ map (fun l => HasIncomingLinkFrom (ref_uuid (sub (lpb_from_entity l))))
         (pb_links_to criteria)
  ++ flat_map of_permission (pb_permissions criteria).

(** [matches(entity, context)]: the match set is not empty. *)
Definition matches (db : Store) (ctx : RequestContext) (p : Predicate)
    (x : Entity) : Result bool :=
  match p with
  | AttributeEquals k v =>
      ys <- attributes db ctx x (Some k) ;;
      Ok (existsb (fun y => a_value y =? v) ys)
  | AttributeKeyExists k =>
      ys <- attributes db ctx x (Some k) ;;
      Ok (nonempty ys)
  | HasOutgoingLinkTo t =>
      ys <- links_from db ctx x ;;
      Ok (existsb (fun y => l_to_uuid y =? t) ys)
  | HasIncomingLinkFrom f =>
      ys <- links_to db ctx x ;;
      Ok (existsb (fun y => l_from_uuid y =? f) ys)
  | HasPermissionUuid u =>
      ys <- permissions db ctx x ;;
      Ok (existsb (fun y => p_uuid y =? u) ys)
  | HasPermissionRole r =>
      ys <- permissions db ctx x ;;
      Ok (existsb (fun y => p_role_uuid y =? r) ys)
  | HasPermissionEntity t =>
      ys <- permissions db ctx x ;;
      Ok (existsb (fun y => p_entity_uuid y =? t) ys)
  | HasPermissionName n =>
      ys <- permissions db ctx x ;;
      Ok (existsb (fun y => p_name y =? n) ys)
  end.

(** Step 3: a candidate passes iff every predicate matches. *)
Definition passes (db : Store) (ctx : RequestContext) (criteria : EntityPb)
    (x : Entity) : Result bool :=
  bs <- mapM (fun p => matches db ctx p x) (predicates criteria) ;;
  Ok (forallb (fun b => b) bs).

End Spec.

(** ** A small store to run the handlers on *)

Module Example.
Import Database Server.

Definition staff := mkEntity "r1".
Definition guests := mkEntity "r2".
Definition alice := mkContext (mkEntity "u1").
Definition bob := mkContext (mkEntity "u2").
Definition carol := mkContext (mkEntity "u3").
Definition doc1 := mkEntity "d1".
Definition doc2 := mkEntity "d2".

(** alice is a member of staff, carol of guests, bob of no role; staff
    reads and writes both documents and reads alice; guests read doc2. *)
Definition db : Store :=
  mkStore
    [ mkEntityRow "r1" "role" "staff";
      mkEntityRow "r2" "role" "guests";
      mkEntityRow "u1" "user" "alice";
      mkEntityRow "u2" "user" "bob";
      mkEntityRow "u3" "user" "carol";
      mkEntityRow "d1" "document" "doc1";
      mkEntityRow "d2" "document" "doc2" ]
    [ mkAttributeRow "a1" "d1" "size" "big";
      mkAttributeRow "a2" "d2" "color" "red";
      mkAttributeRow "a3" "d2" "size" "big" ]
    [ mkLinkRow "l1" "r1" "u1";
      mkLinkRow "l2" "r2" "u3" ]
    [ mkPermissionRow "p1" "r1" "d1" "read";
      mkPermissionRow "p2" "r1" "d1" "write";
      mkPermissionRow "p3" "r1" "d2" "read";
      mkPermissionRow "p4" "r1" "u1" "read";
      mkPermissionRow "p5" "r2" "d2" "read";
      mkPermissionRow "p6" "r2" "u3" "read" ].

Definition criteria (u k n : string) (attrs : list AttributePb) : EntityPb :=
  mkEntityPb u n k attrs [] [] [].

Definition by_uuid (u : string) : EntityPb :=
  criteria u EmptyString EmptyString [].

Definition by_kind (k : string) : EntityPb :=
  criteria EmptyString k EmptyString [].

Definition by_kind_name (k n : string) : EntityPb :=
  criteria EmptyString k n [].

Definition attr (k v : string) : AttributePb :=
  mkAttributePb EmptyString None k v.

(** Documents that are red and big. *)
Definition red_and_big : EntityPb :=
  criteria EmptyString "document" EmptyString
           [attr "color" "red"; attr "size" "big"].

(** A search that names an attribute by its identifier. *)
Definition by_attribute_uuid : EntityPb :=
  criteria EmptyString "document" EmptyString
           [mkAttributePb "a1" None "size" "big"].

Definition create_under (role : string) : CreateEntityRequest :=
  mkCreateEntityRequest
    (criteria EmptyString "document" "doc3" [])
    (Some (mkRef role EmptyString EmptyString)).

Definition delete_size_of (e : string) : AttributePb :=
  mkAttributePb EmptyString (Some (mkRef e EmptyString EmptyString))
                "size" EmptyString.

(** A store in which the role of dave may write doc1 and may not read it. *)
Definition dave := mkContext (mkEntity "u4").

Definition write_only_db : Store :=
  mkStore
    [ mkEntityRow "r3" "role" "writers";
      mkEntityRow "u4" "user" "dave";
      mkEntityRow "d1" "document" "doc1" ]
    []
    [ mkLinkRow "l3" "r3" "u4" ]
    [ mkPermissionRow "p7" "r3" "d1" "write" ].

Definition rename (u n : string) : EntityPb :=
  criteria u EmptyString n [].

End Example.


(** ** Properties *)

Import Database Server Example.

(** *** Notions the statements use *)

(** The variable a closure reads is bound in the frame. *)
Definition bound (s : Locals) (f : Filter) : Prop :=
  match f with
  | AttributeKeyValue | AttributeKey => attribute s <> None
  | LinkFrom | LinkTo => link s <> None
  | PermissionUuid | PermissionRole | PermissionEntity | PermissionName =>
      permission s <> None
  end.

Definition well_bound (s : Locals) : Prop :=
  forall f, In f (filters s) -> bound s f.

(** The frame [s'] has every binding of [s]. *)
Definition extends (s s' : Locals) : Prop :=
  (attribute s <> None -> attribute s' <> None)
  /\ (link s <> None -> link s' <> None)
  /\ (permission s <> None -> permission s' <> None).

(** What one candidate adds to the stream. *)
Definition contribution (db : Store) (ctx : RequestContext) (s : Locals)
    (x : Entity) : list Yielded :=
  match try_candidate db ctx s x with
  | inr (Some pb) => [YPb pb]
  | _ => []
  end.

(** The closures one attribute criterion adds (lines 79 to 82) and the
    closures one permission criterion adds (lines 91 to 98): the tests of
    [permission.role] and [permission.entity] are on message objects and
    always hold. *)
Definition attribute_filters (a : AttributePb) : list Filter :=
  if truthy (apb_key a) && truthy (apb_value a) then [AttributeKeyValue]
  else if truthy (apb_key a) then [AttributeKey]
  else [].

Definition permission_filters (p : PermissionPb) : list Filter :=
  (if truthy (ppb_uuid p) then [PermissionUuid] else [])
  ++ (if truthy_msg (ppb_role p) then [PermissionRole] else [])
  ++ (if truthy_msg (ppb_entity p) then [PermissionEntity] else [])
  ++ (if truthy (ppb_name p) then [PermissionName] else []).

(** The identifier a yielded value stands for. *)
Definition yielded_uuid (y : Yielded) : string :=
  match y with
  | YPb pb => pb_uuid pb
  | YDb (Some e) => uuid e
  | YDb None => EmptyString
  end.

(** A request with its attribute criteria replaced. *)
Definition with_attributes (entity : EntityPb) (attrs : list AttributePb)
    : EntityPb :=
  mkEntityPb (pb_uuid entity) (pb_name entity) (pb_kind entity) attrs
             (pb_links_from entity) (pb_links_to entity)
             (pb_permissions entity).

(** A request with its outgoing-link criteria replaced. *)
Definition with_links_from (entity : EntityPb) (ls : list LinkPb)
    : EntityPb :=
  mkEntityPb (pb_uuid entity) (pb_name entity) (pb_kind entity)
             (pb_attributes entity) ls (pb_links_to entity)
             (pb_permissions entity).

(** A search that names a kind and nothing else. *)
Definition kind_only (k : string) : EntityPb :=
  mkEntityPb EmptyString EmptyString k [] [] [] [].

(** *** Strings, lists and lookups *)

Lemma truthy_false (s : string) : truthy s = false -> s = EmptyString.
Proof.
  unfold truthy. intros H. apply negb_false_iff in H.
  now apply String.eqb_eq in H.
Qed.

Lemma truthy_true (s : string) : truthy s = true <-> s <> EmptyString.
Proof.
  unfold truthy. rewrite negb_true_iff. apply String.eqb_neq.
Qed.

Lemma find_absent {A} (f : A -> bool) (l : list A) :
  (forall x, In x l -> f x = false) -> find f l = None.
Proof.
  induction l as [|a l IH]; intros H; simpl; [reflexivity|].
  rewrite (H a (or_introl eq_refl)). apply IH.
  intros x Hx. apply H. now right.
Qed.


Lemma filter_idem {A} (f : A -> bool) (l : list A) :
  filter f (filter f l) = filter f l.
Proof.
  induction l as [|a l IH]; simpl; [reflexivity|].
  destruct (f a) eqn:E; simpl; [rewrite E, IH|]; auto.
Qed.

Lemma entity_eqb_eq (a b : Entity) : entity_eqb a b = true <-> a = b.
Proof.
  unfold entity_eqb. rewrite String.eqb_eq.
  destruct a as [x], b as [y]; simpl. split; congruence.
Qed.

Lemma existsb_entity_eqb (e : Entity) (l : list Entity) :
  existsb (entity_eqb e) l = true <-> In e l.
Proof.
  rewrite existsb_exists. split.
  - intros [x [Hin Heq]]. apply entity_eqb_eq in Heq. now subst.
  - intros Hin. exists e. split; [assumption|]. now apply entity_eqb_eq.
Qed.

Lemma entity_bool_absent (db : Store) (u : string) :
  ~ In u (map e_uuid (entities db)) -> entity_bool db (mkEntity u) = false.
Proof.
  intros H. unfold entity_bool, find_row.
  rewrite find_absent; [reflexivity|].
  intros r Hr. simpl. apply String.eqb_neq. intros Heq.
  apply H. rewrite <- Heq. now apply in_map.
Qed.

(** *** What the accessors can raise *)

Lemma require_inv (db : Store) (ctx : RequestContext) (e : Entity)
    (c : string) (ex : Exn) :
  require db ctx e c = inl ex ->
  ex = PermissionDeniedException /\ can_access db ctx e c = false.
Proof.
  unfold require. destruct (can_access db ctx e c); intros H.
  - discriminate.
  - inversion H. auto.
Qed.

Lemma require_ok (db : Store) (ctx : RequestContext) (e : Entity)
    (c : string) (u : unit) :
  require db ctx e c = inr u -> can_access db ctx e c = true.
Proof.
  unfold require. destruct (can_access db ctx e c); intros H;
    [reflexivity | discriminate].
Qed.

Lemma attributes_raises db ctx e key ex :
  attributes db ctx e key = inl ex -> ex = PermissionDeniedException.
Proof.
  unfold attributes, bind.
  destruct (require db ctx e "read") eqn:E; intros H; [|discriminate].
  inversion H; subst. now apply require_inv in E.
Qed.

Lemma links_from_raises db ctx e ex :
  links_from db ctx e = inl ex -> ex = PermissionDeniedException.
Proof.
  unfold links_from, bind.
  destruct (require db ctx e "read") eqn:E; intros H; [|discriminate].
  inversion H; subst. now apply require_inv in E.
Qed.

Lemma links_to_raises db ctx e ex :
  links_to db ctx e = inl ex -> ex = PermissionDeniedException.
Proof.
  unfold links_to, bind.
  destruct (require db ctx e "read") eqn:E; intros H; [|discriminate].
  inversion H; subst. now apply require_inv in E.
Qed.

Lemma permissions_raises db ctx e ex :
  permissions db ctx e = inl ex -> ex = PermissionDeniedException.
Proof.
  unfold permissions, bind.
  destruct (require db ctx e "read") eqn:E; intros H; [|discriminate].
  inversion H; subst. now apply require_inv in E.
Qed.

(** A message is only ever built for an entity the caller can read, and it
    carries that entity's identifier. *)
Lemma entity_to_pb_readable db ctx e pb :
  entity_to_pb db ctx e = inr pb ->
  can_access db ctx e "read" = true /\ pb_uuid pb = uuid e.
Proof.
  unfold entity_to_pb, attributes, links_from, links_to, permissions, bind.
  destruct (require db ctx e "read") eqn:E; intros H; [discriminate|].
  apply require_ok in E. inversion H; subst. simpl. auto.
Qed.

Lemma entity_to_pb_raises db ctx e ex :
  entity_to_pb db ctx e = inl ex -> ex = PermissionDeniedException.
Proof.
  unfold entity_to_pb, attributes, links_from, links_to, permissions, bind.
  destruct (require db ctx e "read") eqn:E; intros H; [|discriminate].
  inversion H; subst. now apply require_inv in E.
Qed.

Lemma entity_to_pb_denied db ctx e :
  can_access db ctx e "read" = false ->
  entity_to_pb db ctx e = Raise PermissionDeniedException.
Proof.
  intros H. unfold entity_to_pb, attributes, bind, require. now rewrite H.
Qed.

(** *** The closures only read variables that are bound *)

Lemma bound_extends s s' f : extends s s' -> bound s f -> bound s' f.
Proof.
  intros (Ha & Hl & Hp). destruct f; simpl; auto.
Qed.

Lemma well_bound_append s f :
  well_bound s -> bound s f -> well_bound (append s f).
Proof.
  intros Hs Hf g Hg. unfold append in Hg. simpl in Hg.
  apply in_app_or in Hg. destruct Hg as [Hg | [Hg | []]].
  - apply (bound_extends s); [|now apply Hs].
    unfold extends, append; simpl; auto.
  - subst g. destruct f; exact Hf.
Qed.

Lemma well_bound_when b s f :
  well_bound s -> bound s f -> well_bound (when b s f).
Proof.
  intros Hs Hf. destruct b; simpl; [now apply well_bound_append | exact Hs].
Qed.

(** Rebinding a loop variable keeps the earlier closures bound. *)
Lemma well_bound_rebind s s' :
  well_bound s -> filters s' = filters s -> extends s s' -> well_bound s'.
Proof.
  intros Hs Hf He f Hin. rewrite Hf in Hin.
  apply (bound_extends s s' f He). now apply Hs.
Qed.

Ltac rebind :=
  match goal with
  | H : well_bound ?s |- well_bound _ =>
      apply (well_bound_rebind _ _ H);
      [reflexivity | unfold extends; simpl; repeat split; congruence]
  end.

Lemma attribute_step_bound s a s' :
  attribute_step s a = inr s' -> well_bound s -> well_bound s'.
Proof.
  unfold attribute_step. intros H Hs.
  set (s0 := mkLocals (filters s) (Some a) (link s) (permission s)) in H.
  assert (H0 : well_bound s0) by (subst s0; rebind).
  destruct (truthy (apb_uuid a)); [discriminate|].
  destruct (truthy (apb_key a) && truthy (apb_value a)).
  - inversion H; subst s'. apply well_bound_append; [exact H0|].
    simpl. discriminate.
  - destruct (truthy (apb_key a)); inversion H; subst s'.
    + apply well_bound_append; [exact H0|]. simpl. discriminate.
    + exact H0.
Qed.

Lemma links_from_step_bound s l s' :
  links_from_step s l = inr s' -> well_bound s -> well_bound s'.
Proof.
  unfold links_from_step. intros H Hs. inversion H; subst s'.
  apply well_bound_append; [rebind | simpl; discriminate].
Qed.

Lemma links_to_step_bound s l s' :
  links_to_step s l = inr s' -> well_bound s -> well_bound s'.
Proof.
  unfold links_to_step. intros H Hs. inversion H; subst s'.
  apply well_bound_append; [rebind | simpl; discriminate].
Qed.

Lemma bound_when b s f g :
  bound s g -> bound (when b s f) g.
Proof.
  destruct b; simpl; [|auto]. apply bound_extends.
  unfold extends, append; simpl; auto.
Qed.

Lemma permission_step_bound s p s' :
  permission_step s p = inr s' -> well_bound s -> well_bound s'.
Proof.
  unfold permission_step. intros H Hs. inversion H; subst s'. clear H.
  set (s0 := mkLocals (filters s) (attribute s) (link s) (Some p)).
  assert (H0 : well_bound s0) by (subst s0; rebind).
  assert (B0 : permission s0 <> None) by (subst s0; simpl; discriminate).
  cbv zeta. unfold when.
  repeat match goal with
         | |- context [if ?b then _ else _] => destruct b
         end;
    repeat (apply well_bound_append;
            [| unfold bound, append; simpl; discriminate]);
    exact H0.
Qed.

Lemma for_each_invariant {A} (step : Locals -> A -> Result Locals)
    (P : Locals -> Prop) :
  (forall s x s', step s x = inr s' -> P s -> P s') ->
  forall xs s s', for_each step xs s = inr s' -> P s -> P s'.
Proof.
  intros Hstep xs. induction xs as [|x xs IH]; intros s s' H Hs; simpl in H.
  - inversion H. now subst.
  - unfold bind in H. destruct (step s x) as [ex | s1] eqn:E; [discriminate|].
    apply (IH s1 s' H). exact (Hstep _ _ _ E Hs).
Qed.

Lemma build_filters_bound entity s :
  build_filters entity = inr s -> well_bound s.
Proof.
  unfold build_filters, bind. intros H.
  destruct (for_each attribute_step _ _) as [|s1] eqn:E1; [discriminate|].
  destruct (for_each links_from_step _ _) as [|s2] eqn:E2; [discriminate|].
  destruct (for_each links_to_step _ _) as [|s3] eqn:E3; [discriminate|].
  apply (for_each_invariant _ _ permission_step_bound _ _ _ H).
  apply (for_each_invariant _ _ links_to_step_bound _ _ _ E3).
  apply (for_each_invariant _ _ links_from_step_bound _ _ _ E2).
  apply (for_each_invariant _ _ attribute_step_bound _ _ _ E1).
  intros f [].
Qed.

(** Building the closures raises nothing but the assertion of line 78. *)
Lemma for_each_raises {A} (step : Locals -> A -> Result Locals)
    (P : Exn -> Prop) :
  (forall s x ex, step s x = inl ex -> P ex) ->
  forall xs s ex, for_each step xs s = inl ex -> P ex.
Proof.
  intros Hstep xs. induction xs as [|x xs IH]; intros s ex H; simpl in H.
  - discriminate.
  - unfold bind in H. destruct (step s x) as [e1 | s1] eqn:E.
    + inversion H; subst. exact (Hstep _ _ _ E).
    + exact (IH _ _ H).
Qed.

Lemma build_filters_raises entity ex :
  build_filters entity = inl ex -> ex = AssertionError.
Proof.
  unfold build_filters, bind. intros H.
  destruct (for_each attribute_step _ _) as [e1 | s1] eqn:E1.
  - inversion H; subst.
    apply (for_each_raises attribute_step (fun e => e = AssertionError))
      with (2 := E1).
    intros s x e. unfold attribute_step.
    destruct (truthy (apb_uuid x)); [intros E; now inversion E|].
    destruct (truthy (apb_key x) && truthy (apb_value x)); [discriminate|].
    destruct (truthy (apb_key x)); discriminate.
  - destruct (for_each links_from_step _ s1) as [e2 | s2] eqn:E2.
    + inversion H; subst.
      apply (for_each_raises links_from_step (fun e => e = AssertionError))
        with (2 := E2).
      intros s x e. discriminate.
    + destruct (for_each links_to_step _ s2) as [e3 | s3] eqn:E3.
      * inversion H; subst.
        apply (for_each_raises links_to_step (fun e => e = AssertionError))
          with (2 := E3).
        intros s x e. discriminate.
      * apply (for_each_raises permission_step (fun e => e = AssertionError))
          with (2 := H).
        intros s x e. discriminate.
Qed.

(** *** A candidate's evaluation raises nothing but a permission denial *)

Lemma mapM_raises {A B} (f : A -> Result B) (P : Exn -> Prop) (xs : list A) :
  (forall x ex, In x xs -> f x = inl ex -> P ex) ->
  forall ex, mapM f xs = inl ex -> P ex.
Proof.
  induction xs as [|x xs IH]; intros Hf ex H; simpl in H; [discriminate|].
  unfold bind in H. destruct (f x) as [e1 | y] eqn:E.
  - inversion H; subst. apply (Hf x); [now left | exact E].
  - destruct (mapM f xs) as [e2 | ys] eqn:E2; [|discriminate].
    inversion H; subst. apply IH; [|reflexivity].
    intros x' ex' Hin. apply Hf. now right.
Qed.

Lemma call_filter_raises db ctx s f x ex :
  bound s f -> call_filter db ctx s f x = inl ex ->
  ex = PermissionDeniedException.
Proof.
  intros Hb H. destruct f; simpl in Hb, H; unfold bind in H;
    match type of H with
    | context [deref ?c] => destruct c as [v|]; [simpl in H | congruence]
    end;
    match type of H with
    | context [attributes ?d ?c ?e ?k] =>
        destruct (attributes d c e k) eqn:E;
        [inversion H; subst; exact (attributes_raises _ _ _ _ _ E) | discriminate]
    | context [links_from ?d ?c ?e] =>
        destruct (links_from d c e) eqn:E;
        [inversion H; subst; exact (links_from_raises _ _ _ _ E) | discriminate]
    | context [links_to ?d ?c ?e] =>
        destruct (links_to d c e) eqn:E;
        [inversion H; subst; exact (links_to_raises _ _ _ _ E) | discriminate]
    | context [permissions ?d ?c ?e] =>
        destruct (permissions d c e) eqn:E;
        [inversion H; subst; exact (permissions_raises _ _ _ _ E) | discriminate]
    end.
Qed.

Lemma try_candidate_raises db ctx s x ex :
  well_bound s -> try_candidate db ctx s x = inl ex ->
  ex = PermissionDeniedException.
Proof.
  intros Hs H. unfold try_candidate, combo_filter, bind in H.
  destruct (mapM _ (filters s)) as [e1 | bs] eqn:E.
  - inversion H; subst.
    apply (mapM_raises (fun y => call_filter db ctx s y x)
             (fun e => e = PermissionDeniedException) (filters s));
      [|exact E].
    intros f e Hin Hf. apply (call_filter_raises _ _ _ _ _ _ (Hs f Hin) Hf).
  - destruct (forallb (fun b => b) bs); [|discriminate].
    destruct (entity_to_pb db ctx x) eqn:E2; [|discriminate].
    inversion H; subst. exact (entity_to_pb_raises _ _ _ _ E2).
Qed.

Lemma search_loop_total db ctx s result :
  well_bound s ->
  search_loop db ctx s result
  = (flat_map (contribution db ctx s) result, Finished).
Proof.
  intros Hs. induction result as [|x rest IH]; simpl; [reflexivity|].
  unfold contribution at 1.
  destruct (try_candidate db ctx s x) as [ex | [pb|]] eqn:E.
  - rewrite (try_candidate_raises _ _ _ _ _ Hs E). exact IH.
  - rewrite IH. reflexivity.
  - exact IH.
Qed.

(** *** GetEntity *)

(** C10: a [GetEntity] request that names no identifier and not both a kind
    and a name (kind alone, name alone, nothing) leaves the local [result]
    unassigned, and the handler raises on reading it: it returns neither an
    entity nor [NOT_FOUND]. *)
Theorem GetEntity_unbound_result (db : Store) (ctx : RequestContext)
    (entity : EntityPb) :
  pb_uuid entity = EmptyString ->
  pb_kind entity = EmptyString \/ pb_name entity = EmptyString ->
  GetEntity db ctx entity = Raise UnboundLocalError.
Proof.
  intros Hu Hkn. unfold GetEntity. rewrite Hu. simpl.
  destruct Hkn as [H | H]; rewrite H; simpl.
  - reflexivity.
  - rewrite andb_false_r. reflexivity.
Qed.

Lemma GetEntity_unbound_result_witness :
  pb_uuid (by_kind "document") = EmptyString
  /\ (pb_kind (by_kind "document") = EmptyString
      \/ pb_name (by_kind "document") = EmptyString)
  /\ GetEntity Example.db alice (by_kind "document") = Raise UnboundLocalError.
Proof.
  split; [reflexivity|]. split; [right; reflexivity|].
  apply GetEntity_unbound_result; [reflexivity | right; reflexivity].
Defined.

(** C8: a [GetEntity] point lookup, by identifier or by (kind, name), that
    matches no entity of the store answers [NOT_FOUND] (echoing the request
    message): it neither returns an entity nor raises. *)
Theorem GetEntity_not_found (db : Store) (ctx : RequestContext)
    (entity : EntityPb) :
  (pb_uuid entity <> EmptyString
   /\ ~ In (pb_uuid entity) (map e_uuid (entities db)))
  \/ (pb_uuid entity = EmptyString
      /\ pb_kind entity <> EmptyString /\ pb_name entity <> EmptyString
      /\ forall r, In r (entities db) ->
                   ~ (e_kind r = pb_kind entity /\ e_name r = pb_name entity)) ->
  GetEntity db ctx entity = Ok (mkResponse NOT_FOUND entity).
Proof.
  intros [[Hu Habs] | (Hu & Hk & Hn & Habs)]; unfold GetEntity.
  - apply truthy_true in Hu. rewrite Hu. simpl.
    now rewrite (entity_bool_absent db _ Habs).
  - rewrite Hu. apply truthy_true in Hk, Hn. simpl. rewrite Hk, Hn. simpl.
    rewrite find_absent; [reflexivity|].
    intros r Hr. apply andb_false_iff.
    destruct (e_kind r =? pb_kind entity) eqn:E1; [right | now left].
    apply String.eqb_neq. intros E2. apply String.eqb_eq in E1.
    exact (Habs r Hr (conj E1 E2)).
Qed.

Lemma GetEntity_not_found_witness :
  GetEntity Example.db alice (by_uuid "zz")
  = Ok (mkResponse NOT_FOUND (by_uuid "zz"))
  /\ GetEntity Example.db alice (by_kind_name "document" "doc9")
     = Ok (mkResponse NOT_FOUND (by_kind_name "document" "doc9")).
Proof.
  split; apply GetEntity_not_found.
  - left. split; [discriminate|]. simpl.
    intros H. repeat (destruct H as [H | H]; [discriminate|]). exact H.
  - right. split; [reflexivity|]. split; [discriminate|].
    split; [discriminate|]. simpl. intros r H [_ Hn].
    repeat (destruct H as [H | H]; [subst r; discriminate|]). exact H.
Defined.

(** *** ListEntities: the general search *)

(** An attribute criterion that carries an identifier stops the loop that
    builds the closures, whatever precedes or follows it. *)
Lemma attribute_loop_asserts (attrs : list AttributePb) :
  (exists a, In a attrs /\ apb_uuid a <> EmptyString) ->
  forall s, for_each attribute_step attrs s = Raise AssertionError.
Proof.
  induction attrs as [|a attrs IH]; intros [b [Hin Hb]] s.
  - destruct Hin.
  - simpl. unfold bind, attribute_step.
    destruct (truthy (apb_uuid a)) eqn:E; [reflexivity|].
    assert (Hrest : exists c, In c attrs /\ apb_uuid c <> EmptyString).
    { destruct Hin as [-> | Hin]; [|now exists b].
      apply truthy_false in E. contradiction. }
    destruct (truthy (apb_key a) && truthy (apb_value a));
      [|destruct (truthy (apb_key a))]; apply (IH Hrest).
Qed.

(** C7 (as the code has it): a general search (no identifier, no name) whose
    criteria include an attribute that carries an attribute identifier fails
    on the [assert] of line 78, with an [AssertionError] that nothing
    handles; no status code is set, no closure is called and nothing is
    yielded. *)
Theorem ListEntities_attribute_uuid_asserts (db : Store)
    (ctx : RequestContext) (entity : EntityPb) :
  pb_uuid entity = EmptyString ->
  pb_name entity = EmptyString ->
  (exists a, In a (pb_attributes entity) /\ apb_uuid a <> EmptyString) ->
  ListEntities db ctx entity = ([], Raised AssertionError).
Proof.
  intros Hu Hn Ha. unfold ListEntities, build_filters.
  rewrite Hu, Hn. simpl.
  now rewrite (attribute_loop_asserts _ Ha).
Qed.

Lemma ListEntities_attribute_uuid_asserts_witness :
  ListEntities Example.db alice by_attribute_uuid = ([], Raised AssertionError).
Proof.
  apply ListEntities_attribute_uuid_asserts; [reflexivity | reflexivity |].
  exists (mkAttributePb "a1" None "size" "big").
  split; [now left | discriminate].
Defined.

(** C7 (as stated) does not hold: the search below names an attribute by its
    identifier, and the status of the call is not [INVALID_ARGUMENT]. *)
Lemma ListEntities_attribute_uuid_not_invalid_argument :
  (exists a, In a (pb_attributes by_attribute_uuid)
             /\ apb_uuid a <> EmptyString)
  /\ status_of (snd (ListEntities Example.db alice by_attribute_uuid))
     <> INVALID_ARGUMENT.
Proof.
  split.
  - exists (mkAttributePb "a1" None "size" "big").
    split; [now left | discriminate].
  - simpl. discriminate.
Qed.

(** C4: in a general search, a candidate whose evaluation raises a permission
    denial adds nothing to the stream and the denial goes no further: the
    call never ends on [PermissionDeniedException], and once the closures
    are built it runs to its end, yielding for every candidate, in order,
    exactly what that candidate alone contributes. *)
Theorem ListEntities_swallows_permission_denied (db : Store)
    (ctx : RequestContext) (entity : EntityPb) :
  pb_uuid entity = EmptyString ->
  pb_name entity = EmptyString ->
  snd (ListEntities db ctx entity) <> Raised PermissionDeniedException
  /\ (forall s, build_filters entity = Ok s ->
        ListEntities db ctx entity
        = (flat_map (contribution db ctx s) (candidates db entity), Finished))
  /\ (forall s x, build_filters entity = Ok s ->
        try_candidate db ctx s x = Raise PermissionDeniedException ->
        contribution db ctx s x = []).
Proof.
  intros Hu Hn. unfold ListEntities. rewrite Hu, Hn. simpl.
  split; [|split].
  - destruct (build_filters entity) as [ex | s] eqn:E.
    + simpl. rewrite (build_filters_raises _ _ E). discriminate.
    + rewrite (search_loop_total db ctx _ _ (build_filters_bound _ _ E)).
      simpl. discriminate.
  - intros s E. unfold Ok in E. rewrite E.
    apply search_loop_total. exact (build_filters_bound _ _ E).
  - intros s x _ E. unfold contribution. unfold Raise in E. now rewrite E.
Qed.

Lemma ListEntities_swallows_permission_denied_witness :
  try_candidate Example.db carol (mkLocals [] None None None) doc1
  = Raise PermissionDeniedException
  /\ snd (ListEntities Example.db carol (by_kind "document"))
     <> Raised PermissionDeniedException
  /\ ListEntities Example.db carol (by_kind "document")
     = (flat_map (contribution Example.db carol (mkLocals [] None None None))
                 [doc1; doc2], Finished).
Proof.
  split; [reflexivity|].
  destruct (ListEntities_swallows_permission_denied Example.db carol
              (by_kind "document") eq_refl eq_refl) as (H1 & H2 & _).
  split; [exact H1|].
  exact (H2 (mkLocals [] None None None) eq_refl).
Defined.

(** *** Fresh identifiers *)



(** *** DeleteAttributes *)

(** The verdict of the permission evaluator depends on the links and the
    permissions only. *)
Lemma can_access_same_acl (db db' : Store) (ctx : RequestContext)
    (e : Entity) (c : string) :
  links_tbl db' = links_tbl db ->
  permissions_tbl db' = permissions_tbl db ->
  can_access db' ctx e c = can_access db ctx e c.
Proof.
  intros Hl Hp. unfold can_access, roles_of, incoming. now rewrite Hl, Hp.
Qed.

(** C9: [DeleteAttributes(entity, key)] is idempotent.  For a caller who
    holds the write capability on the entity, the call succeeds, a second
    call in succession succeeds as well and leaves the store as the first
    left it, and no attribute of the entity is left under that key. *)
Theorem DeleteAttributes_idempotent (db : Store) (ctx : RequestContext)
    (pb_attribute : AttributePb) :
  let entity := mkEntity (ref_uuid (sub (apb_entity pb_attribute))) in
  can_access db ctx entity "write" = true ->
  exists db1,
    DeleteAttributes db ctx pb_attribute = (db1, Ok (mkResponse OK EmptyMsg))
    /\ DeleteAttributes db1 ctx pb_attribute
       = (db1, Ok (mkResponse OK EmptyMsg))
    /\ forall a, In a (attributes_tbl db1) ->
                 a_entity_uuid a = uuid entity ->
                 a_key a <> apb_key pb_attribute.
Proof.
  intros entity Hw.
  set (keep := fun a => negb ((a_entity_uuid a =? uuid entity)
                              && (a_key a =? apb_key pb_attribute))).
  set (db1 := mkStore (entities db) (filter keep (attributes_tbl db))
                      (links_tbl db) (permissions_tbl db)).
  assert (Hw1 : can_access db1 ctx entity "write" = true)
    by (rewrite (can_access_same_acl db db1); auto).
  exists db1. split; [|split].
  - unfold DeleteAttributes, delete_attributes, require. fold entity.
    now rewrite Hw.
  - unfold DeleteAttributes, delete_attributes, require. fold entity.
    rewrite Hw1. fold keep. simpl. fold keep.
    now rewrite filter_idem.
  - simpl. intros a Ha He Hk. apply filter_In in Ha. destruct Ha as [_ Ha].
    unfold keep in Ha. rewrite He, Hk, !String.eqb_refl in Ha. discriminate.
Qed.

Lemma DeleteAttributes_idempotent_witness :
  can_access Example.db alice (mkEntity "d1") "write" = true
  /\ exists db1,
       DeleteAttributes Example.db alice (delete_size_of "d1")
       = (db1, Ok (mkResponse OK EmptyMsg))
       /\ DeleteAttributes db1 alice (delete_size_of "d1")
          = (db1, Ok (mkResponse OK EmptyMsg))
       /\ forall a, In a (attributes_tbl db1) ->
                    a_entity_uuid a = "d1" -> a_key a <> "size".
Proof.
  split; [reflexivity|].
  apply (DeleteAttributes_idempotent Example.db alice (delete_size_of "d1")).
  reflexivity.
Defined.

(** *** CreateEntity *)

Lemma linked_roles_inv db ctx roles :
  linked_roles db ctx = inr roles ->
  can_access db ctx (user ctx) "read" = true
  /\ roles = roles_of db (user ctx).
Proof.
  unfold linked_roles, links_to, bind.
  destruct (require db ctx (user ctx) "read") eqn:E; [discriminate|].
  intros H. inversion H; subst. split; [|reflexivity].
  exact (require_ok _ _ _ _ _ E).
Qed.

Lemma entity_to_pb_ok db ctx e :
  can_access db ctx e "read" = true ->
  exists pb, entity_to_pb db ctx e = Ok pb
             /\ pb_uuid pb = uuid e
             /\ pb_kind pb = kind db e
             /\ pb_name pb = name db e.
Proof.
  intros H. unfold entity_to_pb, attributes, links_from, links_to,
    permissions, bind, require. rewrite H.
  eexists. split; [reflexivity|]. simpl. auto.
Qed.






(** *** ListEntities: who is shown what *)

(** The identifier path hands out the database object itself, whatever the
    store and the caller. *)
Lemma ListEntities_by_uuid (db : Store) (ctx : RequestContext)
    (entity : EntityPb) :
  pb_uuid entity <> EmptyString ->
  ListEntities db ctx entity
  = ([YDb (Some (mkEntity (pb_uuid entity)))], Finished).
Proof.
  intros Hu. apply truthy_true in Hu. unfold ListEntities. now rewrite Hu.
Qed.

Lemma contribution_readable db ctx s x y :
  In y (contribution db ctx s x) ->
  exists pb, y = YPb pb /\ pb_uuid pb = uuid x
             /\ can_access db ctx x "read" = true.
Proof.
  unfold contribution, try_candidate, bind.
  destruct (combo_filter db ctx s x) as [|[|]]; simpl; try tauto.
  destruct (entity_to_pb db ctx x) as [|pb] eqn:E; simpl; [tauto|].
  intros [<- | []]. exists pb. split; [reflexivity|].
  destruct (entity_to_pb_readable _ _ _ _ E). auto.
Qed.

(** The general search is confidential: every value it yields is a message
    for a candidate the caller can read. *)
Lemma general_search_confidential (db : Store) (ctx : RequestContext)
    (entity : EntityPb) (y : Yielded) :
  pb_uuid entity = EmptyString ->
  pb_name entity = EmptyString ->
  In y (fst (ListEntities db ctx entity)) ->
  exists pb x, y = YPb pb /\ In x (candidates db entity)
               /\ pb_uuid pb = uuid x
               /\ can_access db ctx x "read" = true.
Proof.
  intros Hu Hn. unfold ListEntities. rewrite Hu, Hn. simpl.
  destruct (build_filters entity) as [ex | s] eqn:E; simpl; [tauto|].
  rewrite (search_loop_total db ctx _ _ (build_filters_bound _ _ E)). simpl.
  intros Hy. apply in_flat_map in Hy. destruct Hy as (x & Hx & Hy).
  destruct (contribution_readable _ _ _ _ _ Hy) as (pb & -> & Hid & Hr).
  now exists pb, x.
Qed.

(** *** Where the closures and the specification's predicates agree *)

Lemma nonempty_filter {A} (f : A -> bool) (l : list A) :
  nonempty (filter f l) = existsb f l.
Proof.
  induction l as [|a l IH]; simpl; [reflexivity|].
  destruct (f a); simpl; [reflexivity | exact IH].
Qed.

(** When every loop variable is bound at most once (at most one attribute
    criterion, one link criterion over both directions and one permission
    criterion) and the permission criterion, if there is one, sets both its
    role and its entity, each closure reads the criterion it was built for,
    and the filter of the code is the conjunction of the specification's
    predicates.  (The closures for the role and for the entity of a
    permission criterion are built whether or not the field is set.) *)
Lemma single_criterion_agreement (db : Store) (ctx : RequestContext)
    (entity : EntityPb) (s : Locals) (x : Entity) :
  List.length (pb_attributes entity) <= 1 ->
  List.length (pb_links_from entity ++ pb_links_to entity) <= 1 ->
  List.length (pb_permissions entity) <= 1 ->
  (forall p, In p (pb_permissions entity) ->
             is_set (ppb_role p) = true /\ is_set (ppb_entity p) = true) ->
  build_filters entity = Ok s ->
  combo_filter db ctx s x = Spec.passes db ctx entity x.
Proof.
  destruct entity as [u n k attrs lf lt ps]. simpl.
  intros Ha Hl Hp Hset.
  assert (Hattrs : attrs = [] \/ exists a, attrs = [a]).
  { destruct attrs as [|a [|b r]]; simpl in Ha;
      [now left | right; now exists a | lia]. }
  assert (Hlinks : (lf = [] /\ lt = []) \/ (exists l, lf = [l] /\ lt = [])
                   \/ (exists l, lf = [] /\ lt = [l])).
  { destruct lf as [|a [|b r]]; destruct lt as [|c [|d r']]; simpl in Hl;
      try lia.
    - now left.
    - right; right. now exists c.
    - right; left. now exists a. }
  assert (Hperms : ps = []
                   \/ exists p, ps = [p] /\ is_set (ppb_role p) = true
                                 /\ is_set (ppb_entity p) = true).
  { destruct ps as [|a [|b r]]; simpl in Hp; [now left | | lia].
    right. exists a. split; [reflexivity|]. apply Hset. now left. }
  clear Ha Hl Hp Hset.
  unfold build_filters, Spec.passes, Spec.predicates, combo_filter. simpl.
  destruct Hattrs as [-> | [a ->]];
    destruct Hlinks as [[-> ->] | [[l [-> ->]] | [l [-> ->]]]];
    destruct Hperms as [-> | [p (-> & Hrole & Hent)]];
    simpl; unfold attribute_step, permission_step, Spec.of_attribute,
             Spec.of_permission, when, truthy_msg;
    repeat match goal with
           | H : is_set _ = true |- _ => rewrite H; clear H
           end;
    repeat match goal with
           | |- context [truthy ?v] => destruct (truthy v)
           end;
    simpl; intros H; inversion H; subst s; clear H; simpl;
    unfold attributes, links_from, links_to, permissions, require, bind;
    destruct (can_access db ctx x "read"); simpl;
    rewrite ?nonempty_filter; reflexivity.
Qed.

(** *** Point lookups *)

(** Once the request names an identifier, [GetEntity] looks at nothing else
    in it: the reply is the message of that entity. *)
Lemma GetEntity_by_uuid (db : Store) (ctx : RequestContext)
    (entity : EntityPb) :
  pb_uuid entity <> EmptyString ->
  In (pb_uuid entity) (map e_uuid (entities db)) ->
  GetEntity db ctx entity
  = (pb <- entity_to_pb db ctx (mkEntity (pb_uuid entity)) ;;
     Ok (mkResponse OK pb)).
Proof.
  intros Hu Hin. apply truthy_true in Hu. unfold GetEntity. rewrite Hu. simpl.
  unfold entity_bool, find_row. simpl.
  destruct (find _ (entities db)) eqn:E; [reflexivity|].
  apply in_map_iff in Hin. destruct Hin as (r & Hr & Hin).
  pose proof (find_none _ _ E r Hin) as Hn. simpl in Hn.
  rewrite Hr, String.eqb_refl in Hn. discriminate.
Qed.

(** No entity is created for a caller who is not a member of the owner
    role, whether or not the enumeration of the roles itself succeeds. *)
Lemma CreateEntity_stranger_creates_nothing (db : Store)
    (ctx : RequestContext) (request : CreateEntityRequest) :
  ~ In (mkEntity (ref_uuid (sub (cr_owner_role request))))
       (roles_of db (user ctx)) ->
  fst (CreateEntity db ctx request) = db.
Proof.
  intros Hin. unfold CreateEntity.
  destruct (linked_roles db ctx) as [ex | roles] eqn:E; [reflexivity|].
  destruct (linked_roles_inv _ _ _ E) as [_ ->].
  apply (proj2 (not_iff_compat (existsb_entity_eqb _ _))) in Hin.
  apply not_true_is_false in Hin. now rewrite Hin.
Qed.

(** C1 on the identifier path, at bob and doc1: bob holds no permission on
    doc1, and [ListEntities] yields doc1 to bob all the same. *)
Theorem ListEntities_by_uuid_unchecked :
  can_access Example.db bob doc1 "read" = false
  /\ ListEntities Example.db bob (by_uuid "d1")
     = ([YDb (Some doc1)], Finished).
Proof.
  split; reflexivity.
Qed.

(** C6 on the identifier path, at bob and doc2: [entity_to_pb] refuses to
    build a message of doc2 for bob, and what [ListEntities] yields is no
    message built by [entity_to_pb] but the database object of doc2. *)
Theorem ListEntities_by_uuid_skips_entity_to_pb :
  entity_to_pb Example.db bob doc2 = Raise PermissionDeniedException
  /\ fst (ListEntities Example.db bob (by_uuid "d2")) = [YDb (Some doc2)]
  /\ forall pb, ~ In (YPb pb) (fst (ListEntities Example.db bob (by_uuid "d2"))).
Proof.
  split; [reflexivity|]. split; [reflexivity|].
  intros pb [H | []]. discriminate.
Qed.

(** C5 on the name path, at the criteria (document, doc1): [GetEntity] looks
    the pair up and returns doc1; [ListEntities] hands [get_by_name] the name
    alone, which is no lookup on the (kind, name) key, and yields nothing. *)
Theorem ListEntities_by_name_drops_kind :
  (exists pb, GetEntity Example.db alice (by_kind_name "document" "doc1")
              = Ok (mkResponse OK pb)
              /\ pb_uuid pb = "d1")
  /\ ListEntities Example.db alice (by_kind_name "document" "doc1")
     = ([], Raised TypeError).
Proof.
  split; [|reflexivity].
  eexists. split; reflexivity.
Qed.

(** C2 at the search for documents that are red and big: the two closures
    built for the two attribute criteria both read the last criterion, so
    doc1, which is big and not red, passes the filter of the code and is
    yielded, while it does not pass the predicates of the specification. *)
Theorem ListEntities_closures_read_last_criterion :
  (exists s, build_filters red_and_big = Ok s
             /\ filters s = [AttributeKeyValue; AttributeKeyValue]
             /\ attribute s = Some (attr "size" "big")
             /\ combo_filter Example.db alice s doc1 = Ok true)
  /\ Spec.predicates red_and_big
     = [Spec.AttributeEquals "color" "red"; Spec.AttributeEquals "size" "big"]
  /\ Spec.passes Example.db alice red_and_big doc1 = Ok false
  /\ (exists pb, In (YPb pb) (fst (ListEntities Example.db alice red_and_big))
                 /\ pb_uuid pb = "d1").
Proof.
  split; [|split; [|split]].
  - eexists. repeat split; reflexivity.
  - reflexivity.
  - reflexivity.
  - eexists. split; [left; reflexivity | reflexivity].
Qed.

(** ** Further properties of the handlers *)

(** *** ListEntities: the general search *)

Lemma contribution_cases db ctx s x :
  contribution db ctx s x = []
  \/ exists pb, contribution db ctx s x = [YPb pb] /\ pb_uuid pb = uuid x.
Proof.
  unfold contribution, try_candidate, bind.
  destruct (combo_filter db ctx s x) as [|[|]]; auto.
  destruct (entity_to_pb db ctx x) as [|pb] eqn:E; auto.
  right. exists pb. split; [reflexivity|].
  now destruct (entity_to_pb_readable _ _ _ _ E).
Qed.

Lemma contributions_in_order db ctx s (result : list Entity) :
  map yielded_uuid (flat_map (contribution db ctx s) result)
  = map uuid (filter (fun x => nonempty (contribution db ctx s x)) result).
Proof.
  induction result as [|x rest IH]; simpl; [reflexivity|].
  rewrite map_app, IH.
  destruct (contribution_cases db ctx s x) as [-> | (pb & -> & Hid)]; simpl.
  - reflexivity.
  - now rewrite Hid.
Qed.

(** The general search yields in the enumeration order of the candidates,
    each candidate at most once: the identifiers of the messages it yields
    are those of a selection of the candidates, in the same order. *)
Theorem general_search_keeps_candidate_order (db : Store)
    (ctx : RequestContext) (entity : EntityPb) :
  pb_uuid entity = EmptyString ->
  pb_name entity = EmptyString ->
  exists keep : Entity -> bool,
    map yielded_uuid (fst (ListEntities db ctx entity))
    = map uuid (filter keep (candidates db entity)).
Proof.
  intros Hu Hn. unfold ListEntities. rewrite Hu, Hn. simpl.
  destruct (build_filters entity) as [ex | s] eqn:E.
  - exists (fun _ => false). simpl.
    induction (candidates db entity); simpl; auto.
  - exists (fun x => nonempty (contribution db ctx s x)).
    rewrite (search_loop_total db ctx _ _ (build_filters_bound _ _ E)).
    simpl. apply contributions_in_order.
Qed.

Lemma general_search_keeps_candidate_order_witness :
  exists keep : Entity -> bool,
    map yielded_uuid (fst (ListEntities Example.db carol (by_kind "document")))
    = map uuid (filter keep (candidates Example.db (by_kind "document"))).
Proof.
  apply general_search_keeps_candidate_order; reflexivity.
Defined.

Lemma contribution_no_filters db ctx s x :
  filters s = [] ->
  contribution db ctx s x
  = match entity_to_pb db ctx x with
    | inr pb => [YPb pb]
    | inl _ => []
    end.
Proof.
  intros Hf. unfold contribution, try_candidate, combo_filter, bind.
  rewrite Hf. simpl. now destruct (entity_to_pb db ctx x).
Qed.

(** A search without attribute, link or permission criteria keeps every
    candidate the caller can read and no other: with no closure to call,
    [all([])] is true and only [entity_to_pb] decides. *)
Theorem search_without_criteria_yields_the_readable (db : Store)
    (ctx : RequestContext) (entity : EntityPb) :
  pb_uuid entity = EmptyString ->
  pb_name entity = EmptyString ->
  pb_attributes entity = [] ->
  pb_links_from entity = [] ->
  pb_links_to entity = [] ->
  pb_permissions entity = [] ->
  snd (ListEntities db ctx entity) = Finished
  /\ map yielded_uuid (fst (ListEntities db ctx entity))
     = map uuid (filter (fun x => can_access db ctx x "read")
                        (candidates db entity)).
Proof.
  intros Hu Hn Ha Hf Ht Hp. unfold ListEntities, build_filters.
  rewrite Hu, Hn, Ha, Hf, Ht, Hp. simpl.
  rewrite search_loop_total by (intros f []). simpl. split; [reflexivity|].
  induction (candidates db entity) as [|x rest IH]; simpl; [reflexivity|].
  rewrite map_app, IH, contribution_no_filters by reflexivity.
  destruct (can_access db ctx x "read") eqn:E.
  - destruct (entity_to_pb_ok db ctx x E) as (pb & -> & Hid & _).
    simpl. now rewrite Hid.
  - now rewrite (entity_to_pb_denied db ctx x E).
Qed.

Lemma search_without_criteria_yields_the_readable_witness :
  snd (ListEntities Example.db carol (by_kind "document")) = Finished
  /\ map yielded_uuid (fst (ListEntities Example.db carol (by_kind "document")))
     = map uuid (filter (fun x => can_access Example.db carol x "read")
                        (candidates Example.db (by_kind "document"))).
Proof.
  apply search_without_criteria_yields_the_readable; reflexivity.
Defined.

(** *** entity_to_pb *)

(** [entity_to_pb] builds a message exactly for the entities the caller can
    read, and raises [PermissionDeniedException] for every other; in a
    message every attribute names the entity by the kind and the name of the
    message itself. *)
Theorem entity_to_pb_iff_readable (db : Store) (ctx : RequestContext)
    (e : Entity) :
  (can_access db ctx e "read" = true ->
     exists pb, entity_to_pb db ctx e = Ok pb
                /\ pb_uuid pb = uuid e
                /\ forall a, In a (pb_attributes pb) ->
                     ref_kind (sub (apb_entity a)) = pb_kind pb
                     /\ ref_name (sub (apb_entity a)) = pb_name pb)
  /\ (can_access db ctx e "read" = false ->
        entity_to_pb db ctx e = Raise PermissionDeniedException).
Proof.
  split; [|apply entity_to_pb_denied].
  intros H. unfold entity_to_pb, attributes, links_from, links_to,
    permissions, bind, require. rewrite H.
  eexists. split; [reflexivity|]. split; [reflexivity|]. simpl.
  intros a Ha. apply in_map_iff in Ha. destruct Ha as (r & <- & _).
  split; reflexivity.
Qed.

(** *** GetEntity *)

(** [GetEntity] is confidential: a reply under the status [OK] is the
    message of an entity the caller can read, and on the identifier path it
    is the entity the request names. *)
Theorem GetEntity_confidential (db : Store) (ctx : RequestContext)
    (entity : EntityPb) (r : Response EntityPb) :
  GetEntity db ctx entity = Ok r ->
  code r = OK ->
  can_access db ctx (mkEntity (pb_uuid (reply r))) "read" = true
  /\ (pb_uuid entity <> EmptyString -> pb_uuid (reply r) = pb_uuid entity).
Proof.
  unfold GetEntity, bind. intros H Hc.
  assert (Hgen : forall e,
             (if entity_bool db e
              then match entity_to_pb db ctx e with
                   | inl ex => inl ex
                   | inr pb => Ok (mkResponse OK pb)
                   end
              else Ok (mkResponse NOT_FOUND entity)) = Ok r ->
             can_access db ctx (mkEntity (pb_uuid (reply r))) "read" = true
             /\ pb_uuid (reply r) = uuid e).
  { intros e He. destruct (entity_bool db e).
    - destruct (entity_to_pb db ctx e) as [|pb] eqn:E; [discriminate|].
      inversion He; subst r. simpl.
      destruct (entity_to_pb_readable _ _ _ _ E) as [Hr Hid].
      rewrite Hid. destruct e. auto.
    - inversion He; subst r. discriminate. }
  destruct (truthy (pb_uuid entity)) eqn:Hu; simpl in H.
  - destruct (Hgen _ H) as [Hr Hid]. auto.
  - apply truthy_false in Hu.
    destruct (truthy (pb_kind entity) && truthy (pb_name entity));
      simpl in H; [|discriminate].
    destruct (find _ (entities db)) as [row|]; simpl in H.
    + destruct (Hgen _ H) as [Hr _]. split; [exact Hr | congruence].
    + inversion H; subst r. discriminate.
Qed.

Lemma GetEntity_confidential_witness :
  exists r, GetEntity Example.db alice (by_uuid "d1") = Ok r
            /\ code r = OK
            /\ can_access Example.db alice (mkEntity (pb_uuid (reply r))) "read"
               = true
            /\ pb_uuid (reply r) = "d1".
Proof.
  eexists. split; [reflexivity|]. split; [reflexivity|].
  destruct (GetEntity_confidential Example.db alice (by_uuid "d1") _
              eq_refl eq_refl) as [H1 H2].
  split; [exact H1 | apply H2; discriminate].
Defined.

(** The outcomes of the body of [GetEntity], lines 111 to 120, once line
    109 has resolved the request context: it raises nothing but the unbound
    local and the permission denial of [entity_to_pb], and it answers under
    [OK] or under [NOT_FOUND], the latter with the request message itself. *)
Theorem GetEntity_outcomes (db : Store) (ctx : RequestContext)
    (entity : EntityPb) :
  match GetEntity db ctx entity with
  | inl ex => ex = UnboundLocalError \/ ex = PermissionDeniedException
  | inr r => code r = OK \/ (code r = NOT_FOUND /\ reply r = entity)
  end.
Proof.
  assert (Hgen : forall e,
             match (if entity_bool db e
                    then pb <- entity_to_pb db ctx e ;; Ok (mkResponse OK pb)
                    else Ok (mkResponse NOT_FOUND entity)) with
             | inl ex => ex = UnboundLocalError \/ ex = PermissionDeniedException
             | inr r => code r = OK \/ (code r = NOT_FOUND /\ reply r = entity)
             end).
  { intros e. destruct (entity_bool db e); [|simpl; auto].
    unfold bind. destruct (entity_to_pb db ctx e) eqn:E; simpl; auto.
    right. exact (entity_to_pb_raises _ _ _ _ E). }
  unfold GetEntity.
  destruct (truthy (pb_uuid entity)); simpl; [apply Hgen|].
  destruct (truthy (pb_kind entity) && truthy (pb_name entity)); simpl;
    [|auto].
  destruct (find _ (entities db)); simpl; [apply Hgen | auto].
Qed.

(** *** ListEntities: what the closures read *)

Lemma last_cons_some {A} (a : A) (l : list A) (d : option A) :
  last (map Some (a :: l)) d = last (map Some l) (Some a).
Proof.
  revert a d. induction l as [|b l IH]; intros a d; [reflexivity|].
  change (last (map Some (a :: b :: l)) d) with (last (map Some (b :: l)) d).
  now rewrite !IH.
Qed.

Lemma attribute_step_closed_form (a : AttributePb) fs a0 l0 p0 :
  apb_uuid a = EmptyString ->
  attribute_step (mkLocals fs a0 l0 p0) a
  = Ok (mkLocals (fs ++ attribute_filters a) (Some a) l0 p0).
Proof.
  intros Hu. unfold attribute_step, attribute_filters, append.
  rewrite Hu. simpl.
  destruct (truthy (apb_key a) && truthy (apb_value a));
    [|destruct (truthy (apb_key a))]; simpl; rewrite ?app_nil_r; reflexivity.
Qed.

Lemma attribute_loop_closed_form (attrs : list AttributePb) :
  (forall a, In a attrs -> apb_uuid a = EmptyString) ->
  forall fs a0 l0 p0,
    for_each attribute_step attrs (mkLocals fs a0 l0 p0)
    = Ok (mkLocals (fs ++ flat_map attribute_filters attrs)
                   (last (map Some attrs) a0) l0 p0).
Proof.
  induction attrs as [|a attrs IH]; intros Hu fs a0 l0 p0.
  - simpl. now rewrite app_nil_r.
  - rewrite last_cons_some.
    change (for_each attribute_step (a :: attrs) (mkLocals fs a0 l0 p0))
      with (s' <- attribute_step (mkLocals fs a0 l0 p0) a ;;
            for_each attribute_step attrs s').
    rewrite (attribute_step_closed_form a _ _ _ _ (Hu a (or_introl eq_refl))).
    simpl. rewrite IH by (intros c Hc; apply Hu; now right).
    now rewrite <- app_assoc.
Qed.

Lemma last_app_singleton {A} (l : list A) (a d : A) : last (l ++ [a]) d = a.
Proof.
  induction l as [|b l IH]; simpl; [reflexivity|].
  destruct (l ++ [a]) eqn:E; [|exact IH].
  destruct l; discriminate.
Qed.

Lemma links_from_loop_closed_form (ls : list LinkPb) fs a0 l0 p0 :
  for_each links_from_step ls (mkLocals fs a0 l0 p0)
  = Ok (mkLocals (fs ++ map (fun _ => LinkFrom) ls) a0
                 (last (map Some ls) l0) p0).
Proof.
  revert fs l0. induction ls as [|l ls IH]; intros fs l0.
  - simpl. now rewrite app_nil_r.
  - rewrite last_cons_some.
    change (for_each links_from_step (l :: ls) (mkLocals fs a0 l0 p0))
      with (for_each links_from_step ls
              (mkLocals (fs ++ [LinkFrom]) a0 (Some l) p0)).
    rewrite IH, <- app_assoc. reflexivity.
Qed.

Lemma links_to_loop_closed_form (ls : list LinkPb) fs a0 l0 p0 :
  for_each links_to_step ls (mkLocals fs a0 l0 p0)
  = Ok (mkLocals (fs ++ map (fun _ => LinkTo) ls) a0
                 (last (map Some ls) l0) p0).
Proof.
  revert fs l0. induction ls as [|l ls IH]; intros fs l0.
  - simpl. now rewrite app_nil_r.
  - rewrite last_cons_some.
    change (for_each links_to_step (l :: ls) (mkLocals fs a0 l0 p0))
      with (for_each links_to_step ls
              (mkLocals (fs ++ [LinkTo]) a0 (Some l) p0)).
    rewrite IH, <- app_assoc. reflexivity.
Qed.

Lemma permission_loop_closed_form (ps : list PermissionPb) fs a0 l0 p0 :
  for_each permission_step ps (mkLocals fs a0 l0 p0)
  = Ok (mkLocals (fs ++ flat_map permission_filters ps) a0 l0
                 (last (map Some ps) p0)).
Proof.
  revert fs p0. induction ps as [|p ps IH]; intros fs p0.
  - simpl. now rewrite app_nil_r.
  - rewrite last_cons_some.
    change (for_each permission_step (p :: ps) (mkLocals fs a0 l0 p0))
      with (s' <- permission_step (mkLocals fs a0 l0 p0) p ;;
            for_each permission_step ps s').
    unfold permission_step, permission_filters, when, append. simpl.
    destruct (truthy (ppb_uuid p)), (truthy_msg (ppb_role p)),
      (truthy_msg (ppb_entity p)), (truthy (ppb_name p)); simpl;
      rewrite IH; rewrite <- ?app_assoc; simpl; rewrite ?app_nil_r;
      reflexivity.
Qed.

Lemma last_map_some_app {A} (l1 l2 : list A) (d : option A) :
  last (map Some l2) (last (map Some l1) d) = last (map Some (l1 ++ l2)) d.
Proof.
  revert d. induction l1 as [|a l1 IH]; intros d; [reflexivity|].
  change ((a :: l1) ++ l2) with (a :: (l1 ++ l2)).
  rewrite !last_cons_some. apply IH.
Qed.

(** The frame the closures are called in.  When no attribute criterion
    carries an identifier, building the closures succeeds.  An attribute
    criterion adds one closure when it names a key (on key and value, or on
    the key alone) and none otherwise; every link criterion adds one; a
    permission criterion adds one for its identifier and one for its name
    when these are not empty, and always one for its role and one for its
    entity, set or not.  The three variables the closures read are left
    bound to the last attribute criterion, the last link criterion
    ([links_from] and [links_to] share the variable, the latter loop running
    last) and the last permission criterion. *)
Theorem build_filters_closed_form (entity : EntityPb) :
  (forall a, In a (pb_attributes entity) -> apb_uuid a = EmptyString) ->
  build_filters entity
  = Ok (mkLocals
          (flat_map attribute_filters (pb_attributes entity)
           ++ map (fun _ => LinkFrom) (pb_links_from entity)
           ++ map (fun _ => LinkTo) (pb_links_to entity)
           ++ flat_map permission_filters (pb_permissions entity))
          (last (map Some (pb_attributes entity)) None)
          (last (map Some (pb_links_from entity ++ pb_links_to entity)) None)
          (last (map Some (pb_permissions entity)) None)).
Proof.
  intros Hu. unfold build_filters.
  rewrite (attribute_loop_closed_form _ Hu). simpl.
  rewrite links_from_loop_closed_form. simpl.
  rewrite links_to_loop_closed_form. simpl.
  rewrite permission_loop_closed_form.
  rewrite last_map_some_app, <- !app_assoc. reflexivity.
Qed.

Lemma build_filters_closed_form_witness :
  build_filters
    (mkEntityPb EmptyString EmptyString "document"
       [attr "color" "red"; attr "size" "big"] [] []
       [mkPermissionPb EmptyString None None "read"])
  = Ok (mkLocals [AttributeKeyValue; AttributeKeyValue;
                  PermissionRole; PermissionEntity; PermissionName]
                 (Some (attr "size" "big")) None
                 (Some (mkPermissionPb EmptyString None None "read"))).
Proof.
  apply (build_filters_closed_form
           (mkEntityPb EmptyString EmptyString "document"
              [attr "color" "red"; attr "size" "big"] [] []
              [mkPermissionPb EmptyString None None "read"])).
  simpl. intros a [<- | [<- | []]]; reflexivity.
Defined.

(** A closure reads the frame through the three variables only. *)
Lemma call_filter_cells db ctx fs fs' a l p f x :
  call_filter db ctx (mkLocals fs a l p) f x
  = call_filter db ctx (mkLocals fs' a l p) f x.
Proof.
  destruct f; reflexivity.
Qed.

Lemma call_filter_skips_attribute db ctx fs a a' l p f x :
  f <> AttributeKeyValue -> f <> AttributeKey ->
  call_filter db ctx (mkLocals fs a l p) f x
  = call_filter db ctx (mkLocals fs a' l p) f x.
Proof.
  intros H1 H2. destruct f; try reflexivity; congruence.
Qed.

Lemma mapM_ext_in {A B} (g g' : A -> Result B) (xs : list A) :
  (forall x, In x xs -> g x = g' x) -> mapM g xs = mapM g' xs.
Proof.
  induction xs as [|x xs IH]; intros H; simpl; [reflexivity|].
  rewrite (H x (or_introl eq_refl)), IH; [reflexivity|].
  intros y Hy. apply H. now right.
Qed.

(** Calling the same closure twice changes neither the verdict nor the
    exception. *)
Lemma verdict_duplicate {A} (g : A -> Result bool) (f : A) (fs : list A) :
  (bs <- mapM g (f :: f :: fs) ;; Ok (forallb (fun b => b) bs))
  = (bs <- mapM g (f :: fs) ;; Ok (forallb (fun b => b) bs)).
Proof.
  simpl. unfold bind. destruct (g f) as [ex | b]; [reflexivity|].
  destruct (mapM g fs) as [ex | bs]; [reflexivity|].
  simpl. now destruct b.
Qed.

Lemma verdict_repeat {A} (g : A -> Result bool) (f : A) (n : nat)
    (fs : list A) :
  (bs <- mapM g (repeat f (S n) ++ fs) ;; Ok (forallb (fun b => b) bs))
  = (bs <- mapM g (f :: fs) ;; Ok (forallb (fun b => b) bs)).
Proof.
  induction n as [|n IH]; [reflexivity|].
  change (repeat f (S (S n)) ++ fs) with (f :: f :: (repeat f n ++ fs)).
  rewrite verdict_duplicate. exact IH.
Qed.

Lemma search_loop_ext db ctx s s' (result : list Entity) :
  (forall x, combo_filter db ctx s x = combo_filter db ctx s' x) ->
  search_loop db ctx s result = search_loop db ctx s' result.
Proof.
  intros H. induction result as [|x rest IH]; simpl; [reflexivity|].
  unfold try_candidate. rewrite (H x), IH. reflexivity.
Qed.

Lemma attribute_filters_key_value (attrs : list AttributePb) :
  (forall c, In c attrs ->
             apb_key c <> EmptyString /\ apb_value c <> EmptyString) ->
  flat_map attribute_filters attrs
  = repeat AttributeKeyValue (List.length attrs).
Proof.
  induction attrs as [|a attrs IH]; intros H; simpl; [reflexivity|].
  destruct (H a (or_introl eq_refl)) as [Hk Hv].
  apply truthy_true in Hk, Hv. unfold attribute_filters at 1.
  rewrite Hk, Hv. simpl. rewrite IH; [reflexivity|].
  intros c Hc. apply H. now right.
Qed.

(** Only the last attribute criterion counts.  In a general search whose
    attribute criteria all name a key and a value, every closure tests the
    key and the value of the last criterion: the search yields what the
    search with that last criterion alone yields. *)
Theorem last_attribute_criterion_wins (db : Store) (ctx : RequestContext)
    (entity : EntityPb) (l : list AttributePb) (a : AttributePb) :
  pb_uuid entity = EmptyString ->
  pb_name entity = EmptyString ->
  pb_attributes entity = l ++ [a] ->
  (forall c, In c (l ++ [a]) ->
             apb_uuid c = EmptyString
             /\ apb_key c <> EmptyString /\ apb_value c <> EmptyString) ->
  ListEntities db ctx entity
  = ListEntities db ctx (with_attributes entity [a]).
Proof.
  intros Hu Hn Ha Hall. unfold ListEntities. simpl.
  rewrite Hu, Hn. simpl.
  change (candidates db (with_attributes entity [a]))
    with (candidates db entity).
  assert (Hids : forall c, In c (pb_attributes entity) ->
                           apb_uuid c = EmptyString)
    by (rewrite Ha; intros c Hc; now apply Hall).
  assert (Hid1 : forall c, In c (pb_attributes (with_attributes entity [a])) ->
                           apb_uuid c = EmptyString).
  { simpl. intros c [<- | []]. apply Hall. apply in_or_app. right. now left. }
  rewrite (build_filters_closed_form entity Hids).
  rewrite (build_filters_closed_form _ Hid1). simpl.
  rewrite Ha, map_app. simpl. rewrite last_app_singleton.
  rewrite attribute_filters_key_value
    by (intros c Hc; now apply Hall).
  assert (Ha1 : attribute_filters a = [AttributeKeyValue]).
  { destruct (Hall a) as (_ & Hk & Hv); [apply in_or_app; right; now left|].
    apply truthy_true in Hk, Hv. unfold attribute_filters.
    now rewrite Hk, Hv. }
  rewrite Ha1, length_app, Nat.add_comm. simpl List.length.
  apply search_loop_ext. intros x. unfold combo_filter. simpl filters.
  set (rest := map (fun _ => LinkFrom) (pb_links_from entity) ++ _).
  rewrite (mapM_ext_in _ (fun y => call_filter db ctx
                                     (mkLocals [] (Some a)
                                        (last (map Some (pb_links_from entity
                                                         ++ pb_links_to entity))
                                              None)
                                        (last (map Some (pb_permissions entity))
                                              None)) y x))
    by (intros; apply call_filter_cells).
  symmetry.
  rewrite (mapM_ext_in _ (fun y => call_filter db ctx
                                     (mkLocals [] (Some a)
                                        (last (map Some (pb_links_from entity
                                                         ++ pb_links_to entity))
                                              None)
                                        (last (map Some (pb_permissions entity))
                                              None)) y x))
    by (intros; apply call_filter_cells).
  symmetry. apply (verdict_repeat _ AttributeKeyValue (List.length l) rest).
Qed.

Lemma last_attribute_criterion_wins_witness :
  ListEntities Example.db alice red_and_big
  = ListEntities Example.db alice
      (with_attributes red_and_big [attr "size" "big"]).
Proof.
  apply (last_attribute_criterion_wins Example.db alice red_and_big
           [attr "color" "red"] (attr "size" "big"));
    try reflexivity.
  simpl. intros c [<- | [<- | []]];
    (split; [reflexivity | split; discriminate]).
Defined.

Lemma attribute_filters_keyless (attrs : list AttributePb) :
  (forall c, In c attrs -> apb_key c = EmptyString) ->
  flat_map attribute_filters attrs = [].
Proof.
  induction attrs as [|a attrs IH]; intros H; simpl; [reflexivity|].
  unfold attribute_filters at 1. rewrite (H a (or_introl eq_refl)). simpl.
  apply IH. intros c Hc. apply H. now right.
Qed.

(** Attribute criteria without a key are dropped without an error: a
    general search all of whose attribute criteria lack a key (whatever
    their value) yields what the search without attribute criteria
    yields. *)
Theorem keyless_attribute_criteria_are_dropped (db : Store)
    (ctx : RequestContext) (entity : EntityPb) :
  pb_uuid entity = EmptyString ->
  pb_name entity = EmptyString ->
  (forall c, In c (pb_attributes entity) ->
             apb_uuid c = EmptyString /\ apb_key c = EmptyString) ->
  ListEntities db ctx entity = ListEntities db ctx (with_attributes entity []).
Proof.
  intros Hu Hn Hall. unfold ListEntities. simpl. rewrite Hu, Hn. simpl.
  change (candidates db (with_attributes entity [])) with (candidates db entity).
  rewrite (build_filters_closed_form entity)
    by (intros c Hc; now apply Hall).
  rewrite (build_filters_closed_form (with_attributes entity []))
    by (intros c []).
  simpl. rewrite attribute_filters_keyless by (intros c Hc; now apply Hall).
  simpl. apply search_loop_ext. intros x. unfold combo_filter. simpl filters.
  f_equal. apply mapM_ext_in. intros f Hf.
  apply call_filter_skips_attribute.
  - intros ->. apply in_app_or in Hf. destruct Hf as [Hf | Hf];
      [apply in_map_iff in Hf; destruct Hf as (? & ? & _); discriminate|].
    apply in_app_or in Hf. destruct Hf as [Hf | Hf];
      [apply in_map_iff in Hf; destruct Hf as (? & ? & _); discriminate|].
    apply in_flat_map in Hf. destruct Hf as (p & _ & Hp).
    unfold permission_filters in Hp.
    destruct (truthy (ppb_uuid p)), (truthy_msg (ppb_role p)),
      (truthy_msg (ppb_entity p)), (truthy (ppb_name p)); simpl in Hp;
      repeat (destruct Hp as [Hp | Hp]; [discriminate|]); exact Hp.
  - intros ->. apply in_app_or in Hf. destruct Hf as [Hf | Hf];
      [apply in_map_iff in Hf; destruct Hf as (? & ? & _); discriminate|].
    apply in_app_or in Hf. destruct Hf as [Hf | Hf];
      [apply in_map_iff in Hf; destruct Hf as (? & ? & _); discriminate|].
    apply in_flat_map in Hf. destruct Hf as (p & _ & Hp).
    unfold permission_filters in Hp.
    destruct (truthy (ppb_uuid p)), (truthy_msg (ppb_role p)),
      (truthy_msg (ppb_entity p)), (truthy (ppb_name p)); simpl in Hp;
      repeat (destruct Hp as [Hp | Hp]; [discriminate|]); exact Hp.
Qed.

Lemma keyless_attribute_criteria_are_dropped_witness :
  ListEntities Example.db alice
    (criteria EmptyString "document" EmptyString [attr EmptyString "red"])
  = ListEntities Example.db alice
      (with_attributes
         (criteria EmptyString "document" EmptyString [attr EmptyString "red"])
         []).
Proof.
  apply keyless_attribute_criteria_are_dropped; try reflexivity.
  simpl. intros c [<- | []]. split; reflexivity.
Defined.

(** *** CreateEntity and the lookups that follow it *)

Lemma find_present {A} (f : A -> bool) (l : list A) (x : A) :
  In x l -> f x = true -> exists y, find f l = Some y /\ f y = true.
Proof.
  induction l as [|a l IH]; intros Hin Hx; [destruct Hin|]. simpl.
  destruct (f a) eqn:E; [now exists a|].
  destruct Hin as [-> | Hin]; [congruence | now apply IH].
Qed.

Lemma fresh_uuid_truthy (used : list string) :
  truthy (fresh_uuid used) = true.
Proof.
  reflexivity.
Qed.

(** The owner role reads what it owns: after [create], a member of the
    owner role can read the new entity. *)
Lemma create_readable db ctx k n owner :
  existsb (entity_eqb owner) (roles_of db (user ctx)) = true ->
  can_access (fst (create db k n owner)) ctx (snd (create db k n owner))
             "read" = true.
Proof.
  intros Hex. unfold can_access, create. simpl. rewrite existsb_app.
  apply orb_true_iff. right. simpl.
  rewrite String.eqb_refl. simpl.
  change (roles_of _ (user ctx)) with (roles_of db (user ctx)).
  destruct owner as [o]. simpl. now rewrite Hex.
Qed.

Lemma CreateEntity_ok_inv db ctx request db' pb :
  CreateEntity db ctx request = (db', Ok (mkResponse OK pb)) ->
  db' = fst (create db (pb_kind (cr_entity request))
                    (pb_name (cr_entity request))
                    (mkEntity (ref_uuid (sub (cr_owner_role request)))))
  /\ entity_to_pb db' ctx (mkEntity (fresh_uuid (used_uuids db))) = Ok pb.
Proof.
  unfold CreateEntity. intros H.
  destruct (linked_roles db ctx) as [ex | roles]; [discriminate|].
  destruct (existsb _ roles); simpl in H; [|discriminate].
  injection H as Hdb Hr. subst db'. split; [reflexivity|].
  unfold bind in Hr.
  destruct (entity_to_pb _ ctx _) as [|pb'] eqn:E; [discriminate|].
  assert (Heq : pb' = pb) by (inversion Hr; reflexivity).
  subst pb'. reflexivity.
Qed.

(** Create then get.  The message [CreateEntity] returns is the message a
    [GetEntity] by the new identifier returns right after, whatever else the
    request of the lookup carries. *)
Theorem CreateEntity_then_GetEntity (db db' : Store) (ctx : RequestContext)
    (request : CreateEntityRequest) (pb : EntityPb) (lookup : EntityPb) :
  CreateEntity db ctx request = (db', Ok (mkResponse OK pb)) ->
  pb_uuid lookup = pb_uuid pb ->
  GetEntity db' ctx lookup = Ok (mkResponse OK pb).
Proof.
  intros Hc Hl. destruct (CreateEntity_ok_inv _ _ _ _ _ Hc) as [Hdb Hpb].
  destruct (entity_to_pb_readable _ _ _ _ Hpb) as [_ Hid]. simpl in Hid.
  unfold GetEntity. rewrite Hl, Hid, fresh_uuid_truthy. simpl.
  assert (Hb : entity_bool db' (mkEntity (fresh_uuid (used_uuids db))) = true).
  { unfold entity_bool, find_row. subst db'. simpl.
    destruct (find_present
                (fun r => e_uuid r =? fresh_uuid (used_uuids db))
                (entities db
                 ++ [mkEntityRow (fresh_uuid (used_uuids db))
                       (pb_kind (cr_entity request))
                       (pb_name (cr_entity request))])
                (mkEntityRow (fresh_uuid (used_uuids db))
                   (pb_kind (cr_entity request))
                   (pb_name (cr_entity request))))
      as (y & -> & _); [|apply String.eqb_refl | reflexivity].
    apply in_or_app. right. now left. }
  rewrite Hb. unfold bind. now rewrite Hpb.
Qed.

Lemma CreateEntity_then_GetEntity_witness :
  exists db' pb,
    CreateEntity Example.db alice (create_under "r1")
    = (db', Ok (mkResponse OK pb))
    /\ GetEntity db' alice (by_uuid (pb_uuid pb)) = Ok (mkResponse OK pb).
Proof.
  eexists. eexists. split; [reflexivity|].
  apply (CreateEntity_then_GetEntity Example.db _ alice (create_under "r1"));
    reflexivity.
Defined.

(** Create then search.  A search by the kind of the entity just created,
    with no other criterion, yields the message [CreateEntity] returned. *)
Theorem CreateEntity_then_ListEntities (db db' : Store)
    (ctx : RequestContext) (request : CreateEntityRequest) (pb : EntityPb) :
  CreateEntity db ctx request = (db', Ok (mkResponse OK pb)) ->
  In (YPb pb)
     (fst (ListEntities db' ctx (kind_only (pb_kind (cr_entity request))))).
Proof.
  intros Hc. destruct (CreateEntity_ok_inv _ _ _ _ _ Hc) as [Hdb Hpb].
  unfold ListEntities, build_filters. simpl.
  rewrite search_loop_total by (intros f []). simpl.
  apply in_flat_map. exists (mkEntity (fresh_uuid (used_uuids db))). split.
  - unfold candidates, kind_only. simpl. subst db'. simpl.
    destruct (truthy (pb_kind (cr_entity request))).
    + unfold get_by_kind. simpl. rewrite filter_app, map_app. simpl.
      rewrite String.eqb_refl. simpl. apply in_or_app. right. now left.
    + unfold get_all. simpl. rewrite map_app. apply in_or_app. right.
      now left.
  - rewrite contribution_no_filters by reflexivity.
    unfold Ok in Hpb. rewrite Hpb. now left.
Qed.

Lemma CreateEntity_then_ListEntities_witness :
  exists db' pb,
    CreateEntity Example.db alice (create_under "r1")
    = (db', Ok (mkResponse OK pb))
    /\ In (YPb pb) (fst (ListEntities db' alice (kind_only "document"))).
Proof.
  eexists. eexists. split; [reflexivity|].
  apply (CreateEntity_then_ListEntities Example.db _ alice
           (create_under "r1")).
  reflexivity.
Defined.

(** [CreateEntity] is all or nothing.  It raises a permission denial (from
    the enumeration of the caller's roles) or answers [FAILED_PRECONDITION],
    in both cases with the store as it was; or it answers [OK], and then
    the store has one more entity, the one returned, its attributes and
    links are as they were and its permissions have only grown. *)
Theorem CreateEntity_all_or_nothing (db : Store) (ctx : RequestContext)
    (request : CreateEntityRequest) :
  CreateEntity db ctx request = (db, Raise PermissionDeniedException)
  \/ CreateEntity db ctx request
     = (db, Ok (mkResponse FAILED_PRECONDITION empty_entity_pb))
  \/ exists db' pb,
       CreateEntity db ctx request = (db', Ok (mkResponse OK pb))
       /\ entities db'
          = entities db
            ++ [mkEntityRow (pb_uuid pb) (pb_kind (cr_entity request))
                            (pb_name (cr_entity request))]
       /\ attributes_tbl db' = attributes_tbl db
       /\ links_tbl db' = links_tbl db
       /\ exists granted,
            permissions_tbl db' = permissions_tbl db ++ granted.
Proof.
  unfold CreateEntity.
  destruct (linked_roles db ctx) as [ex | roles] eqn:E.
  - left. unfold linked_roles, bind in E.
    destruct (links_to db ctx (user ctx)) eqn:E2; [|discriminate].
    inversion E; subst. now rewrite (links_to_raises _ _ _ _ E2).
  - destruct (linked_roles_inv _ _ _ E) as [_ ->].
    destruct (existsb _ (roles_of db (user ctx))) eqn:Hex; simpl;
      [|right; now left].
    right; right.
    pose proof (create_readable db ctx (pb_kind (cr_entity request))
                  (pb_name (cr_entity request)) _ Hex) as Hr.
    destruct (entity_to_pb_ok _ _ _ Hr) as (pb & Hpb & Hid & _).
    simpl in Hpb, Hid.
    eexists. exists pb. unfold Ok in Hpb. rewrite Hpb. simpl.
    split; [reflexivity|]. rewrite Hid. repeat split. eexists. reflexivity.
Qed.

(** *** UpdateEntity *)

Lemma renamed_name (rows : list EntityRow) (u n : string) :
  In u (map e_uuid rows) ->
  exists r,
    find (fun r => e_uuid r =? u)
         (map (fun r => if e_uuid r =? u
                        then mkEntityRow (e_uuid r) (e_kind r) n else r)
              rows)
    = Some r
    /\ e_name r = n.
Proof.
  induction rows as [|a rows IH]; intros Hin; [destruct Hin|]. simpl.
  destruct (e_uuid a =? u) eqn:E; simpl.
  - rewrite E. eexists. split; reflexivity.
  - rewrite E. apply IH. destruct Hin as [Hin | Hin]; [|exact Hin].
    apply String.eqb_neq in E. contradiction.
Qed.

(** A rename is kept although the call fails.  For a caller who may write
    the entity and may not read it, [UpdateEntity] stores the new name and
    then raises [PermissionDeniedException] while building the reply. *)
Theorem UpdateEntity_write_only_caller (db : Store) (ctx : RequestContext)
    (entity : EntityPb) :
  can_access db ctx (mkEntity (pb_uuid entity)) "write" = true ->
  can_access db ctx (mkEntity (pb_uuid entity)) "read" = false ->
  exists db',
    UpdateEntity db ctx entity = (db', Raise PermissionDeniedException)
    /\ forall r, In r (entities db) -> e_uuid r = pb_uuid entity ->
                 In (mkEntityRow (e_uuid r) (e_kind r) (pb_name entity))
                    (entities db').
Proof.
  intros Hw Hr. unfold UpdateEntity, set_name, require. rewrite Hw.
  eexists. split.
  - simpl. rewrite entity_to_pb_denied; [reflexivity|].
    rewrite (can_access_same_acl db); [exact Hr | reflexivity | reflexivity].
  - simpl. intros r Hin Hu. apply in_map_iff. exists r.
    split; [|exact Hin]. now rewrite Hu, String.eqb_refl.
Qed.

Lemma UpdateEntity_write_only_caller_witness :
  exists db',
    UpdateEntity write_only_db dave (rename "d1" "renamed")
    = (db', Raise PermissionDeniedException)
    /\ In (mkEntityRow "d1" "document" "renamed") (entities db').
Proof.
  destruct (UpdateEntity_write_only_caller write_only_db dave
              (rename "d1" "renamed") eq_refl eq_refl) as (db' & H1 & H2).
  exists db'. split; [exact H1|].
  apply (H2 (mkEntityRow "d1" "document" "doc1")); [|reflexivity].
  simpl. auto.
Defined.

(** Update then get.  For a caller who may write and read an existing
    entity, [UpdateEntity] answers with the message of that entity under its
    new name, and a [GetEntity] by the identifier right after returns the
    same message. *)
Theorem UpdateEntity_then_GetEntity (db : Store) (ctx : RequestContext)
    (entity : EntityPb) :
  pb_uuid entity <> EmptyString ->
  In (pb_uuid entity) (map e_uuid (entities db)) ->
  can_access db ctx (mkEntity (pb_uuid entity)) "write" = true ->
  can_access db ctx (mkEntity (pb_uuid entity)) "read" = true ->
  exists db' pb,
    UpdateEntity db ctx entity = (db', Ok (mkResponse OK pb))
    /\ pb_uuid pb = pb_uuid entity
    /\ pb_name pb = pb_name entity
    /\ GetEntity db' ctx entity = Ok (mkResponse OK pb).
Proof.
  intros Hu Hin Hw Hr. unfold UpdateEntity, set_name, require. rewrite Hw.
  set (db' := mkStore _ _ _ _).
  assert (Hr' : can_access db' ctx (mkEntity (pb_uuid entity)) "read" = true)
    by (rewrite (can_access_same_acl db);
        [exact Hr | reflexivity | reflexivity]).
  destruct (entity_to_pb_ok _ _ _ Hr') as (pb & Hpb & Hid & _ & Hname).
  destruct (renamed_name (entities db) (pb_uuid entity) (pb_name entity) Hin)
    as (r & Hfind & Hn).
  assert (Hrow : find_row db' (mkEntity (pb_uuid entity)) = Some r)
    by (unfold find_row; subst db'; exact Hfind).
  exists db', pb. cbv beta iota delta [bind Ok]. unfold Ok in Hpb.
  rewrite Hpb.
  split; [reflexivity|]. split; [exact Hid|]. split.
  - rewrite Hname. unfold name. now rewrite Hrow.
  - apply truthy_true in Hu. unfold GetEntity, entity_bool. rewrite Hu.
    cbv beta iota delta [bind Ok]. now rewrite Hrow, Hpb.
Qed.

Lemma UpdateEntity_then_GetEntity_witness :
  exists db' pb,
    UpdateEntity Example.db alice (rename "d1" "renamed")
    = (db', Ok (mkResponse OK pb))
    /\ pb_uuid pb = "d1"
    /\ pb_name pb = "renamed"
    /\ GetEntity db' alice (rename "d1" "renamed") = Ok (mkResponse OK pb).
Proof.
  apply (UpdateEntity_then_GetEntity Example.db alice (rename "d1" "renamed")).
  - discriminate.
  - simpl. auto 10.
  - reflexivity.
  - reflexivity.
Defined.

(** *** ListEntities: when the general search fails *)

(** The general search ends normally exactly when no attribute criterion
    carries an identifier; otherwise it ends on the [AssertionError] of line
    78, and it has then yielded nothing. *)
Theorem general_search_finishes_iff_no_attribute_uuid (db : Store)
    (ctx : RequestContext) (entity : EntityPb) :
  pb_uuid entity = EmptyString ->
  pb_name entity = EmptyString ->
  (snd (ListEntities db ctx entity) = Finished
   <-> forall a, In a (pb_attributes entity) -> apb_uuid a = EmptyString)
  /\ (snd (ListEntities db ctx entity) <> Finished ->
      ListEntities db ctx entity = ([], Raised AssertionError)).
Proof.
  intros Hu Hn.
  assert (Hdec : (forall a, In a (pb_attributes entity) ->
                            apb_uuid a = EmptyString)
                 \/ exists a, In a (pb_attributes entity)
                              /\ apb_uuid a <> EmptyString).
  { induction (pb_attributes entity) as [|a l IH].
    - left. intros a [].
    - destruct (string_dec (apb_uuid a) EmptyString) as [E | E].
      + destruct IH as [IH | (b & Hb & Hne)].
        * left. intros c [<- | Hc]; auto.
        * right. exists b. split; [now right | exact Hne].
      + right. exists a. split; [now left | exact E]. }
  unfold ListEntities. rewrite Hu, Hn. simpl.
  destruct Hdec as [Hall | Hex].
  - pose proof (build_filters_closed_form entity Hall) as Hb.
    unfold Ok in Hb. rewrite Hb.
    rewrite search_loop_total
      by (apply (build_filters_bound entity); exact Hb).
    simpl. split; [tauto | congruence].
  - assert (Hb : build_filters entity = inl AssertionError)
      by (unfold build_filters; now rewrite (attribute_loop_asserts _ Hex)).
    rewrite Hb. simpl. split; [|reflexivity].
    split; [discriminate|].
    intros Hall. destruct Hex as (a & Ha & Hne). elim Hne. now apply Hall.
Qed.

Lemma general_search_finishes_iff_no_attribute_uuid_witness :
  (snd (ListEntities Example.db alice by_attribute_uuid) = Finished
   <-> forall a, In a (pb_attributes by_attribute_uuid) ->
                 apb_uuid a = EmptyString)
  /\ (snd (ListEntities Example.db alice by_attribute_uuid) <> Finished ->
      ListEntities Example.db alice by_attribute_uuid
      = ([], Raised AssertionError)).
Proof.
  apply general_search_finishes_iff_no_attribute_uuid; reflexivity.
Defined.

(** *** ListEntities: the two link loops share one variable *)

Lemma last_app_nonempty {A} (l1 l2 : list A) (d d' : A) :
  l2 <> [] -> last (l1 ++ l2) d = last l2 d'.
Proof.
  intros Hne. induction l1 as [|a l1 IH]; simpl.
  - destruct l2 as [|b l2]; [congruence|]. clear Hne.
    revert b. induction l2 as [|c l2 IH2]; intros b; [reflexivity|].
    apply (IH2 c).
  - destruct (l1 ++ l2) eqn:E; [|exact IH].
    destruct l1; [simpl in E; congruence | discriminate].
Qed.

Lemma map_const_length {A B} (c : B) (l l' : list A) :
  List.length l = List.length l' ->
  map (fun _ => c) l = map (fun _ => c) l'.
Proof.
  revert l'. induction l as [|a l IH]; intros [|b l'] H; simpl in *;
    try discriminate; [reflexivity|].
  f_equal. apply IH. now injection H.
Qed.

(** With an incoming-link criterion in the request, what the outgoing-link
    criteria say is never read: the closures of [links_from] test the
    [to_entity] of the last [links_to] criterion, so two general searches
    that differ only in the content of their [links_from] criteria yield
    the same. *)
Theorem links_from_criteria_unread_beside_links_to (db : Store)
    (ctx : RequestContext) (entity : EntityPb) (others : list LinkPb) :
  pb_uuid entity = EmptyString ->
  pb_name entity = EmptyString ->
  (forall a, In a (pb_attributes entity) -> apb_uuid a = EmptyString) ->
  pb_links_to entity <> [] ->
  List.length others = List.length (pb_links_from entity) ->
  ListEntities db ctx entity
  = ListEntities db ctx (with_links_from entity others).
Proof.
  intros Hu Hn Ha Ht Hlen. unfold ListEntities. simpl. rewrite Hu, Hn. simpl.
  change (candidates db (with_links_from entity others))
    with (candidates db entity).
  rewrite (build_filters_closed_form entity Ha).
  rewrite (build_filters_closed_form (with_links_from entity others) Ha).
  simpl.
  rewrite (map_const_length LinkFrom others (pb_links_from entity) Hlen).
  rewrite !map_app.
  rewrite (last_app_nonempty (map Some others) _ None None),
          (last_app_nonempty (map Some (pb_links_from entity)) _ None None);
    [reflexivity | |];
    destruct (pb_links_to entity); simpl; congruence.
Qed.

Lemma links_from_criteria_unread_beside_links_to_witness :
  ListEntities Example.db alice
    (mkEntityPb EmptyString EmptyString "user" []
       [mkLinkPb EmptyString None (Some (mkRef "d1" EmptyString EmptyString))]
       [mkLinkPb EmptyString (Some (mkRef "r1" EmptyString EmptyString)) None]
       [])
  = ListEntities Example.db alice
      (with_links_from
         (mkEntityPb EmptyString EmptyString "user" []
            [mkLinkPb EmptyString None
               (Some (mkRef "d1" EmptyString EmptyString))]
            [mkLinkPb EmptyString
               (Some (mkRef "r1" EmptyString EmptyString)) None]
            [])
         [mkLinkPb EmptyString None
            (Some (mkRef "d2" EmptyString EmptyString))]).
Proof.
  apply links_from_criteria_unread_beside_links_to; try reflexivity.
  - intros a [].
  - discriminate.
Defined.

(** *** The two read paths agree *)

(** What [GetEntity] returns for an identifier, a search by the kind of that
    entity yields too. *)
Theorem GetEntity_reply_is_searchable (db : Store) (ctx : RequestContext)
    (entity : EntityPb) (pb : EntityPb) :
  pb_uuid entity <> EmptyString ->
  GetEntity db ctx entity = Ok (mkResponse OK pb) ->
  In (YPb pb) (fst (ListEntities db ctx (kind_only (pb_kind pb)))).
Proof.
  intros Hu H. apply truthy_true in Hu. unfold GetEntity in H.
  rewrite Hu in H. cbv beta iota delta [bind Ok] in H.
  unfold entity_bool in H.
  destruct (find_row db (mkEntity (pb_uuid entity))) as [row|] eqn:Hrow;
    [|discriminate].
  destruct (entity_to_pb db ctx (mkEntity (pb_uuid entity))) as [|pb'] eqn:E;
    [discriminate|].
  assert (Heq : pb' = pb) by (inversion H; reflexivity). subst pb'.
  assert (Hk : pb_kind pb = e_kind row).
  { destruct (entity_to_pb_ok db ctx (mkEntity (pb_uuid entity)))
      as (pb2 & E2 & _ & Hk2 & _).
    - now destruct (entity_to_pb_readable _ _ _ _ E).
    - unfold Ok in E2. rewrite E in E2. inversion E2; subst pb2.
      rewrite Hk2. unfold kind. now rewrite Hrow. }
  unfold find_row in Hrow. apply find_some in Hrow.
  destruct Hrow as [Hin Hid]. apply String.eqb_eq in Hid. simpl in Hid.
  unfold ListEntities, build_filters. simpl.
  rewrite search_loop_total by (intros f []). simpl.
  apply in_flat_map. exists (mkEntity (pb_uuid entity)). split.
  - unfold candidates, kind_only. simpl. rewrite <- Hid.
    destruct (truthy (pb_kind pb)).
    + unfold get_by_kind.
      apply (in_map (fun r => mkEntity (e_uuid r))), filter_In.
      split; [exact Hin|]. rewrite Hk. apply String.eqb_refl.
    + unfold get_all. now apply (in_map (fun r => mkEntity (e_uuid r))).
  - rewrite contribution_no_filters by reflexivity. rewrite E. now left.
Qed.

Lemma GetEntity_reply_is_searchable_witness :
  exists pb,
    GetEntity Example.db alice (by_uuid "d2") = Ok (mkResponse OK pb)
    /\ In (YPb pb) (fst (ListEntities Example.db alice (kind_only "document"))).
Proof.
  eexists. split; [reflexivity|].
  apply (GetEntity_reply_is_searchable Example.db alice (by_uuid "d2"));
    [discriminate | reflexivity].
Defined.

(** *** Instances of the earlier lemmas *)

Lemma general_search_confidential_witness :
  exists pb x,
    In (YPb pb) (fst (ListEntities Example.db carol (by_kind "document")))
    /\ In x (candidates Example.db (by_kind "document"))
    /\ pb_uuid pb = uuid x
    /\ can_access Example.db carol x "read" = true.
Proof.
  pose (y := hd (YDb None)
                (fst (ListEntities Example.db carol (by_kind "document")))).
  assert (Hin : In y (fst (ListEntities Example.db carol
                             (by_kind "document"))))
    by (left; reflexivity).
  destruct (general_search_confidential Example.db carol (by_kind "document")
              y eq_refl eq_refl Hin) as (pb & x & Hy & Hx & Hid & Hr).
  exists pb, x. rewrite <- Hy. auto.
Defined.

Lemma single_criterion_agreement_witness :
  combo_filter Example.db alice
    (mkLocals [PermissionRole; PermissionEntity; PermissionName] None None
       (Some (mkPermissionPb EmptyString
                (Some (mkRef "r1" EmptyString EmptyString))
                (Some (mkRef "d1" EmptyString EmptyString)) "read")))
    doc1
  = Spec.passes Example.db alice
      (mkEntityPb EmptyString EmptyString "document" [] [] []
         [mkPermissionPb EmptyString
            (Some (mkRef "r1" EmptyString EmptyString))
            (Some (mkRef "d1" EmptyString EmptyString)) "read"])
      doc1.
Proof.
  apply (single_criterion_agreement Example.db alice
           (mkEntityPb EmptyString EmptyString "document" [] [] []
              [mkPermissionPb EmptyString
                 (Some (mkRef "r1" EmptyString EmptyString))
                 (Some (mkRef "d1" EmptyString EmptyString)) "read"])).
  - simpl. lia.
  - simpl. lia.
  - simpl. lia.
  - simpl. intros p [<- | []]. split; reflexivity.
  - reflexivity.
Defined.

Lemma GetEntity_by_uuid_witness :
  GetEntity Example.db alice
    (criteria "d1" "role" "nobody" [mkAttributePb "a9" None "k" "v"])
  = (pb <- entity_to_pb Example.db alice (mkEntity "d1") ;;
     Ok (mkResponse OK pb)).
Proof.
  apply (GetEntity_by_uuid Example.db alice
           (criteria "d1" "role" "nobody" [mkAttributePb "a9" None "k" "v"])).
  - discriminate.
  - simpl. auto 10.
Defined.

Lemma CreateEntity_stranger_creates_nothing_witness :
  fst (CreateEntity Example.db bob (create_under "r1")) = Example.db.
Proof.
  apply CreateEntity_stranger_creates_nothing.
  simpl. intros [].
Defined.
